(** * dotastats/models.py: freshness policy, ingestion constructors,
      classification and the match-sequence cursor

    A shallow embedding of the model layer of [dotastats].  Database tables
    are lists of rows (or a finite map from primary key to row where the code
    addresses rows by primary key), query sets are list pipelines, upstream
    JSON records are finite maps from field names to Python values, and Python
    exceptions are an error monad. *)

From Stdlib Require Import ZArith String List Lia DecimalString DecimalPos DecimalZ.
From stdpp Require Import base option list sorting gmap strings.

Local Open Scope string_scope.
Local Open Scope Z_scope.

(** ** Python values and exceptions *)

(** The values a parsed JSON document is made of ([json.loads]): [None],
    booleans, integers, strings, lists and dictionaries.  Upstream numbers
    are integers throughout; fractional numbers are left out. *)
#[warnings="-register-all"]
Inductive pyval : Type :=
  | PNone
  | PBool (b : bool)
  | PInt (z : Z)
  | PStr (s : string)
  | PList (l : list pyval)
  | PDict (d : gmap string pyval).

(** The exceptions the modelled code can raise. *)
Inductive exn : Type :=
  | KeyError (key : string)
  | IndexError
  | ValueError.

Inductive result (A : Type) : Type :=
  | Ok (a : A)
  | Raise (e : exn).
Arguments Ok {A} a.
Arguments Raise {A} e.

#[global] Instance result_ret : MRet result := λ A a, Ok a.
#[global] Instance result_bind : MBind result := λ A B f m,
  match m with
  | Ok a => f a
  | Raise e => Raise e
  end.

(** [d[key]]: raises [KeyError] when the key is missing. *)
Definition getitem (d : gmap string pyval) (key : string) : result pyval :=
  match d !! key with
  | Some v => Ok v
  | None => Raise (KeyError key)
  end.

(** [d.get(key, None)]. *)
Definition get (d : gmap string pyval) (key : string) : pyval :=
  default PNone (d !! key).

(** [v == None]. *)
Definition is_None (v : pyval) : bool :=
  match v with
  | PNone => true
  | _ => false
  end.

(** [v == n] for an integer literal [n]; Python's booleans are integers,
    so [False == 0] and [True == 1] hold. *)
Definition eq_int (v : pyval) (n : Z) : bool :=
  match v with
  | PInt z => z =? n
  | PBool b => (if b then 1 else 0) =? n
  | _ => false
  end.

(** [str(n)] on an integer: its decimal numeral, with a leading minus sign
    for negative numbers. *)
Definition str (n : Z) : string :=
  NilZero.string_of_int (Z.to_int n).

(** [int(s)] restricted to plain decimal numerals, used to state that
    [str] yields the decimal representation. *)
Definition parse_int (s : string) : option Z :=
  Z.of_int <$> NilZero.int_of_string s.

(** ** Label mappings *)

Definition get_game_type (game_mode : Z) : string :=
  if game_mode =? 1 then "All Pick"
  else if game_mode =? 2 then "Captain's Mode"
  else if game_mode =? 3 then "Random Draft"
  else if game_mode =? 4 then "Single Draft"
  else if game_mode =? 5 then "All Random"
  else if game_mode =? 6 then "Death Mode"
  else if game_mode =? 7 then "Diretide"
  else if game_mode =? 8 then "Reverse Captain's Mode"
  else if game_mode =? 9 then "The Greeviling"
  else if game_mode =? 10 then "Tutorial"
  else if game_mode =? 11 then "Mid Only"
  else if game_mode =? 12 then "Least Played"
  else if game_mode =? 13 then "New Player Pool"
  else str game_mode.

Definition get_lobby_type (lobby_type : Z) : string :=
  if lobby_type =? 0 then "Public Match"
  else if lobby_type =? 1 then "Practice Match"
  else if lobby_type =? 2 then "Tournament Match"
  else if lobby_type =? 3 then "Tutorial"
  else if lobby_type =? 4 then "Co-op Bot Match"
  else if lobby_type =? 5 then "Team Match"
  else str lobby_type.

(** The label tables as the specification lists them, and the rendering
    rule it describes: the table's label, or the numeric string for a code
    the table does not have. *)
Definition label_of (table : list (Z * string)) (code : Z) : string :=
  default (str code) ((λ hit, hit.2.2) <$> list_find (λ entry, entry.1 = code) table).

Definition game_mode_labels : list (Z * string) :=
  [ (1, "All Pick"); (2, "Captain's Mode"); (3, "Random Draft");
    (4, "Single Draft"); (5, "All Random"); (6, "Death Mode");
    (7, "Diretide"); (8, "Reverse Captain's Mode"); (9, "The Greeviling");
    (10, "Tutorial"); (11, "Mid Only"); (12, "Least Played");
    (13, "New Player Pool") ].

Definition lobby_type_labels_spec : list (Z * string) :=
  [ (0, "Public"); (1, "Practice"); (2, "Tournament"); (3, "Tutorial");
    (4, "Co-op vs Bots"); (5, "Team Match") ].

(** The lobby labels the code renders. *)
Definition lobby_type_labels : list (Z * string) :=
  [ (0, "Public Match"); (1, "Practice Match"); (2, "Tournament Match");
    (3, "Tutorial"); (4, "Co-op Bot Match"); (5, "Team Match") ].

(** ** Query sets

    A table is the list of its rows; a query set is a pipeline over it.
    Timestamps ([DateTimeField]) and durations ([timedelta]) are integers
    in one fixed unit, so [now - ttl] is integer subtraction. *)

Section QuerySet.
Context {Row : Type}.

(** [Q(...)] objects: conditions on a row.  Every column filtered on
    below is declared without [null=True], so conditions are two-valued. *)
Definition Q : Type := Row → bool.
Definition Q_or (a b : Q) : Q := λ row, a row || b row.
Definition Q_and (a b : Q) : Q := λ row, a row && b row.

(** [.filter(q)] and [.exclude(q)]. *)
Definition qs_filter (q : Q) (rows : list Row) : list Row :=
  filter (λ row, q row = true) rows.
Definition qs_exclude (q : Q) (rows : list Row) : list Row :=
  filter (λ row, q row = false) rows.

(** [.order_by(field)], ascending.  The database leaves the order of
    rows with equal keys open; the model takes the one of a merge sort. *)
Definition key_le (field : Row → Z) : relation Row :=
  λ a b, field a ≤ field b.
#[global] Instance key_le_dec field a b : Decision (key_le field a b) :=
  decide (field a ≤ field b).

Definition order_by (field : Row → Z) (rows : list Row) : list Row :=
  merge_sort (key_le field) rows.

(** [qs[:n]]. *)
Definition slice_to (n : nat) (rows : list Row) : list Row := take n rows.

(** [qs[0]]: raises [IndexError] on an empty query set. *)
Definition first_item (rows : list Row) : result Row :=
  match rows with
  | row :: _ => Ok row
  | [] => Raise IndexError
  end.
End QuerySet.

(** ** SteamPlayer *)

Module SteamPlayer.
Record t : Type := mk {
  steamid : Z;
  last_refresh : Z;
  personaname : string;
  profileurl : string;
  avatar : string;
  avatarmedium : string;
  avatarfull : string;
  lastlogoff : option Z
}.

(** [now] stands for [timezone.now()], [PLAYER_FRESHNESS] for the setting
    [DOTA_PLAYER_REFRESH], [objects] for the table. *)
Definition get_refresh (now PLAYER_FRESHNESS : Z) (objects : list t) : list t :=
  slice_to 100
    (order_by last_refresh
      (qs_filter (λ row, last_refresh row <? now - PLAYER_FRESHNESS) objects)).
End SteamPlayer.

(** ** MatchHistoryQueue and its participants *)

Module MatchHistoryQueue.
Record t : Type := mk {
  match_id : Z;
  last_refresh : Z;
  match_seq_num : Z;
  start_time : Z;
  lobby_type : Z
}.
End MatchHistoryQueue.

Module MatchHistoryQueuePlayers.
(** A model instance as the constructor builds it: the keyword arguments
    are stored as they come, without validation. *)
Record t : Type := mk {
  match_history_queue : MatchHistoryQueue.t;
  account_id_id : pyval;
  player_slot : pyval;
  hero_id_id : pyval;
  is_bot : bool
}.

Section from_json_response.
(** [steamapi.convertAccountNumbertoSteam64] lives in
    [dotastats/json/steamapi.py]; the constructor is stated over any
    such function. *)
Variable convertAccountNumbertoSteam64 : pyval → result pyval.

Definition from_json_response
    (match_history_queue : MatchHistoryQueue.t) (json : gmap string pyval)
    : result t :=
  account_id_id ← convertAccountNumbertoSteam64 (get json "account_id");
  player_slot ← getitem json "player_slot";
  hero_id_id ← getitem json "hero_id";
  mret (mk match_history_queue account_id_id player_slot hero_id_id
          (if is_None (get json "account_id") then true else false)).
End from_json_response.
End MatchHistoryQueuePlayers.

(** ** MatchDetails *)

Module MatchDetails.
Record t : Type := mk {
  match_id : Z;
  last_refresh : Z;
  match_seq_num : Z;
  season : Z;
  radiant_win : bool;
  duration : Z;
  start_time : Z;
  tower_status_radiant : Z;
  tower_status_dire : Z;
  barracks_status_radiant : Z;
  barracks_status_dire : Z;
  cluster : Z;
  first_blood_time : Z;
  lobby_type : Z;
  human_players : Z;
  leagueid : Z;
  positive_votes : Z;
  negative_votes : Z;
  game_mode : Z
}.

Definition low_priority : Q (Row := t) :=
  Q_or (Q_or (Q_or (λ row, lobby_type row =? 4)
                   (λ row, human_players row <? 10))
             (λ row, duration row <? 480))
       (Q_and (λ row, tower_status_dire row =? 2047)
              (λ row, tower_status_radiant row =? 2047)).

Definition exclude_low_priority (objects : list t) : list t :=
  qs_exclude low_priority objects.

(** [try: return ...[0]] / [except IndexError: return None]. *)
Definition get_refresh (now MATCH_FRESHNESS : Z) (objects : list t)
    : result (option t) :=
  match
    first_item
      (order_by last_refresh
        (qs_filter (λ row, last_refresh row <? now - MATCH_FRESHNESS) objects))
  with
  | Ok row => Ok (Some row)
  | Raise IndexError => Ok None
  | Raise e => Raise e
  end.

Definition get_lobby_type (self : t) : string := get_lobby_type (lobby_type self).
Definition get_game_type (self : t) : string := get_game_type (game_mode self).
End MatchDetails.

(** ** MatchDetailsPlayerEntry *)

Module MatchDetailsPlayerEntry.
Record t : Type := mk {
  match_details : MatchDetails.t;
  account_id_id : pyval;
  player_slot : pyval;
  hero_id_id : pyval;
  item_0_id : pyval;
  item_1_id : pyval;
  item_2_id : pyval;
  item_3_id : pyval;
  item_4_id : pyval;
  item_5_id : pyval;
  kills : pyval;
  deaths : pyval;
  assists : pyval;
  leaver_status : pyval;
  gold : pyval;
  last_hits : pyval;
  denies : pyval;
  gold_per_min : pyval;
  xp_per_min : pyval;
  gold_spent : pyval;
  hero_damage : pyval;
  tower_damage : pyval;
  hero_healing : pyval;
  level : pyval;
  ability_upgrades : pyval;
  additional_units : pyval;
  is_bot : bool
}.

Section from_json_response.
Variable convertAccountNumbertoSteam64 : pyval → result pyval.

(** Returns [None] for an empty player slot, the new instance
    otherwise; keyword arguments are evaluated left to right. *)
Definition from_json_response
    (match_details : MatchDetails.t) (json : gmap string pyval)
    : result (option t) :=
  hero ← getitem json "hero_id";
  if eq_int hero 0 then mret None
  else
    account_id_id ← convertAccountNumbertoSteam64 (get json "account_id");
    player_slot ← getitem json "player_slot";
    hero_id_id ← getitem json "hero_id";
    item_0_id ← getitem json "item_0";
    item_1_id ← getitem json "item_1";
    item_2_id ← getitem json "item_2";
    item_3_id ← getitem json "item_3";
    item_4_id ← getitem json "item_4";
    item_5_id ← getitem json "item_5";
    kills ← getitem json "kills";
    deaths ← getitem json "deaths";
    assists ← getitem json "assists";
    let leaver_status := get json "leaver_status" in
    gold ← getitem json "gold";
    last_hits ← getitem json "last_hits";
    denies ← getitem json "denies";
    gold_per_min ← getitem json "gold_per_min";
    xp_per_min ← getitem json "xp_per_min";
    gold_spent ← getitem json "gold_spent";
    hero_damage ← getitem json "hero_damage";
    tower_damage ← getitem json "tower_damage";
    hero_healing ← getitem json "hero_healing";
    level ← getitem json "level";
    let ability_upgrades := get json "ability_upgrades" in
    let additional_units := get json "additional_units" in
    mret (Some
      (mk match_details account_id_id player_slot hero_id_id
          item_0_id item_1_id item_2_id item_3_id item_4_id item_5_id
          kills deaths assists leaver_status gold last_hits denies
          gold_per_min xp_per_min gold_spent hero_damage tower_damage
          hero_healing level ability_upgrades additional_units
          (if is_None (get json "account_id")
              || is_None (get json "leaver_status")
           then true else false))).
End from_json_response.
End MatchDetailsPlayerEntry.

(** ** MatchSequenceNumber *)

Module MatchSequenceNumber.
(** A model instance: primary key and the one column. *)
Record t : Type := mk {
  pk : Z;
  last_match_seq_num : Z
}.

(** The table, addressed by primary key: [pk ↦ last_match_seq_num]. *)
Abbreviation table := (gmap Z Z).

(** [objects.get_or_create(pk=k)]: the stored row, or a new row with the
    column default [0], which is inserted. *)
Definition get_or_create (k : Z) (objects : table) : (t * bool) * table :=
  match objects !! k with
  | Some v => ((mk k v, false), objects)
  | None => ((mk k 0, true), <[k := 0]> objects)
  end.

(** The values a [BigIntegerField] column holds: the signed 64-bit
    integers. *)
Definition bigint (v : Z) : bool := (- 2 ^ 63 <=? v) && (v <? 2 ^ 63).

(** The outcome of a write: the table after it, or the error the database
    raises for a value the column cannot hold (which exception it is
    depends on the backend); nothing is stored then. *)
Inductive written : Type :=
  | Saved (objects : table)
  | OutOfRange.

(** [self.save()] with the primary key set: update the row with that key
    or insert it, unless the column cannot hold the value. *)
Definition save (self : t) (objects : table) : written :=
  if bigint (last_match_seq_num self)
  then Saved (<[pk self := last_match_seq_num self]> objects)
  else OutOfRange.

Definition get_last_match_seq_num (objects : table) : Z * table :=
  let '((row, _), objects') := get_or_create 1 objects in
  (last_match_seq_num row, objects').

Definition set_last_match_seq_num (last_seq_num : Z) (objects : table)
    : written :=
  save (mk 1 last_seq_num) objects.

(** Histories of calls to the two static methods. *)
Inductive call : Type :=
  | GetLast
  | SetLast (last_seq_num : Z).

(** The table after a call; a write that raises leaves it as it was. *)
Definition step (objects : table) (c : call) : table :=
  match c with
  | GetLast => snd (get_last_match_seq_num objects)
  | SetLast v =>
      match set_last_match_seq_num v objects with
      | Saved objects' => objects'
      | OutOfRange => objects
      end
  end.

Definition run (calls : list call) (objects : table) : table :=
  foldl step objects calls.

(** The value of the latest [SetLast] of a history that the column can
    hold, [acc] without one. *)
Fixpoint last_set (calls : list call) (acc : Z) : Z :=
  match calls with
  | [] => acc
  | GetLast :: rest => last_set rest acc
  | SetLast v :: rest => last_set rest (if bigint v then v else acc)
  end.
End MatchSequenceNumber.

(** ** Identity resolver *)

Module steamapi.
Section offset.
(** The fixed distance between the two identifier spaces. *)
Variable offset : Z.

(** Modelled from the spec: [steamapi.convertAccountNumbertoSteam64]
    of [dotastats/json/steamapi.py].  A 32-bit account number
    becomes the 64-bit identifier by adding the fixed offset, an absent
    number stays absent, and anything that is not a number is a
    conversion error. *)
Definition convertAccountNumbertoSteam64 (steamID : pyval) : result pyval :=
  match steamID with
  | PNone => Ok PNone
  | PInt account => Ok (PInt (account + offset))
  | _ => Raise ValueError
  end.

(** Modelled from the spec: the conversion back, from the 64-bit
    identifier to the 32-bit account number, which the module
    [dotastats/json/steamapi.py] would hold next to the one above. *)
Definition convertSteam64toAccountNumber (steam64 : pyval) : result pyval :=
  match steam64 with
  | PNone => Ok PNone
  | PInt community => Ok (PInt (community - offset))
  | _ => Raise ValueError
  end.
End offset.
End steamapi.

(** ** Absent fields and sample records *)

(** A field of an upstream record is absent or null: the key is missing
    or its value is [None]. *)
Definition absent_or_null (json : gmap string pyval) (key : string) : Prop :=
  json !! key = None ∨ json !! key = Some PNone.

(** The offset in use between account numbers and 64-bit identifiers. *)
Definition sample_offset : Z := 76561197960265728.

(** A stored match last refreshed at the given time. *)
Definition match_at (match_id last_refresh : Z) : MatchDetails.t :=
  MatchDetails.mk match_id last_refresh 25000000 0 true 481 900 1983 2047
    63 51 111 140 0 10 0 0 0 1.

(** A match with 10 human players, duration 481, lobby type 0 and one
    tower mask short of 2047. *)
Definition sample_match : MatchDetails.t := match_at 27110133 1000.

Definition sample_queue : MatchHistoryQueue.t :=
  MatchHistoryQueue.mk 27110133 1000 25000000 900 0.

(** A participant of a discovery summary whose hero slot is empty. *)
Definition empty_slot_json : gmap string pyval :=
  list_to_map
    [ ("account_id", PInt 4294967295); ("player_slot", PInt 132);
      ("hero_id", PInt 0) ].

(** A participant of a discovery summary with a hero and no account. *)
Definition anonymous_slot_json : gmap string pyval :=
  list_to_map [ ("player_slot", PInt 1); ("hero_id", PInt 11) ].

(** A player of a match-detail record who has an account and no
    [leaver_status]. *)
Definition player_json : gmap string pyval :=
  list_to_map
    [ ("account_id", PInt 1234); ("player_slot", PInt 0);
      ("hero_id", PInt 11); ("item_0", PInt 50); ("item_1", PInt 0);
      ("item_2", PInt 0); ("item_3", PInt 36); ("item_4", PInt 0);
      ("item_5", PInt 0); ("kills", PInt 3); ("deaths", PInt 7);
      ("assists", PInt 9); ("gold", PInt 812); ("last_hits", PInt 74);
      ("denies", PInt 2); ("gold_per_min", PInt 301);
      ("xp_per_min", PInt 355); ("gold_spent", PInt 9100);
      ("hero_damage", PInt 6120); ("tower_damage", PInt 140);
      ("hero_healing", PInt 0); ("level", PInt 14);
      ("ability_upgrades", PList []) ].

(** Three stored players, last refreshed at 950, 100 and 50. *)
Definition player_at (steamid last_refresh : Z) : SteamPlayer.t :=
  SteamPlayer.mk steamid last_refresh "" "" "" "" "" None.

Definition sample_players : list SteamPlayer.t :=
  [ player_at 76561197960265729 950; player_at 76561197960265730 100;
    player_at 76561197960265731 50 ].

(** * The remaining methods of the models *)

From Stdlib Require Import Ascii.

(** ** Python strings

    A string is the sequence of its characters; [Ascii.ascii] stands for the
    character type. *)

(** [s.split(sep)] for a one-character separator: the pieces between the
    occurrences of [sep], one more than there are occurrences. *)
Fixpoint split (sep : Ascii.ascii) (s : string) : list string :=
  match s with
  | EmptyString => [EmptyString]
  | String c rest =>
      if Ascii.eqb c sep then EmptyString :: split sep rest
      else match split sep rest with
           | piece :: pieces => String c piece :: pieces
           | [] => [String c EmptyString]
           end
  end.

(** [l[-(k+1)]]: raises [IndexError] when the list has at most [k] items. *)
Definition item_from_end {A : Type} (k : nat) (l : list A) : result A :=
  match reverse l !! k with
  | Some x => Ok x
  | None => Raise IndexError
  end.

(** [needle in s]. *)
Fixpoint contains (needle s : string) : bool :=
  String.prefix needle s
  || match s with
     | EmptyString => false
     | String _ rest => contains needle rest
     end.

(** [s[n:]]. *)
Fixpoint slice_from (n : nat) (s : string) : string :=
  match n, s with
  | O, _ => s
  | S n', String _ rest => slice_from n' rest
  | S _, EmptyString => EmptyString
  end.

(** [s.replace(old, new)] for one-character [old] and [new]. *)
Fixpoint replace (old new : Ascii.ascii) (s : string) : string :=
  match s with
  | EmptyString => EmptyString
  | String c rest =>
      String (if Ascii.eqb c old then new else c) (replace old new rest)
  end.

(** The characters of a string. *)
Fixpoint chars (s : string) : list Ascii.ascii :=
  match s with
  | EmptyString => []
  | String c rest => c :: chars rest
  end.

(** ** SteamPlayer: lookups and the profile handle *)

Module SteamPlayerMethods.
Import SteamPlayer.

(** [self.profileurl.split('/')[-2]] when the profile URL is set, the
    numeric [steamid] otherwise. *)
Definition get_id_or_url (self : t) : result pyval :=
  match profileurl self with
  | String _ _ =>
      part ← item_from_end 1 (split "/"%char (profileurl self));
      mret (PStr part)
  | EmptyString => Ok (PInt (steamid self))
  end.

(** The outcome of [objects.get(...)]: the one matching row, or one of
    the two exceptions of a lookup. *)
Inductive lookup (A : Type) : Type :=
  | Found (a : A)
  | ObjectDoesNotExist
  | MultipleObjectsReturned.
Arguments Found {A} a.
Arguments ObjectDoesNotExist {A}.
Arguments MultipleObjectsReturned {A}.

Definition objects_get {Row : Type} (q : Q (Row := Row)) (rows : list Row)
    : lookup Row :=
  match qs_filter q rows with
  | [] => ObjectDoesNotExist
  | [row] => Found row
  | _ :: _ :: _ => MultipleObjectsReturned
  end.

(** [try: return objects.get(steamid=communityid)] /
    [except ObjectDoesNotExist: return None]; any other exception of the
    lookup passes through.  [Found r] is the normal return of [r], a
    player or [None]. *)
Definition get_by_id (communityid : Z) (objects : list t) : lookup (option t) :=
  match objects_get (λ row, steamid row =? communityid) objects with
  | Found row => Found (Some row)
  | ObjectDoesNotExist => Found None
  | MultipleObjectsReturned => MultipleObjectsReturned
  end.

(** The [communityid] argument of [filter_by_name]: [None], an integer
    or a string. *)
Inductive communityid_arg : Type :=
  | CNone
  | CInt (z : Z)
  | CStr (s : string).

Section filter_by_name.
(** The database's case-insensitive matching ([__icontains], [__iexact]:
    column value first, argument second) and Python's [int] on a string
    ([None] for a [ValueError]) are taken as given. *)
Variable icontains : string → string → bool.
Variable iexact : string → string → bool.
Variable int_of_str : string → option Z.

(** [filter |= Q(...)], where [None] is the empty [Q()]: an empty
    condition joined with another one is that other one. *)
Definition Q_ior (filter : option (Q (Row := t))) (q : Q (Row := t))
    : option (Q (Row := t)) :=
  match filter with
  | None => Some q
  | Some f => Some (Q_or f q)
  end.

(** [objects.filter(filter)]: the empty [Q()] keeps every row. *)
Definition filter_Q (filter : option (Q (Row := t))) (objects : list t)
    : list t :=
  match filter with
  | None => objects
  | Some q => qs_filter q objects
  end.

Definition filter_by_name
    (name profileurl : option string) (communityid : communityid_arg)
    (count : nat) (objects : list t) : result (list t) :=
  let filter : option (Q (Row := t)) := None in
  match name, profileurl, communityid with
  | None, None, CNone => Raise ValueError
  | _, _, _ =>
      let filter :=
        match name with
        | Some (String c n) =>
            Q_ior filter (λ row, icontains (personaname row) (String c n))
        | _ => filter
        end in
      let filter :=
        match profileurl with
        | Some (String c u) =>
            Q_ior filter (λ row, iexact (SteamPlayer.profileurl row) (String c u))
        | _ => filter
        end in
      let filter :=
        match communityid with
        | CInt z =>
            if z =? 0 then filter
            else Q_ior filter (λ row, steamid row =? z)
        | CStr (String c s) =>
            match int_of_str (String c s) with
            | Some z => Q_ior filter (λ row, steamid row =? z)
            | None => filter
            end
        | _ => filter
        end in
      Ok (slice_to count (filter_Q filter objects))
  end.

(** The criteria that take part in a search: a non-empty string, and a
    community id that is a non-zero integer or a non-empty string that
    [int] accepts. *)
Definition searched (text : option string) : option string :=
  match text with
  | Some (String c s) => Some (String c s)
  | _ => None
  end.

Definition searched_id (communityid : communityid_arg) : option Z :=
  match communityid with
  | CInt z => if z =? 0 then None else Some z
  | CStr (String c s) => int_of_str (String c s)
  | _ => None
  end.

(** A row meets one of the criteria that take part. *)
Definition hit (name profileurl : option string)
    (communityid : communityid_arg) (row : t) : bool :=
  from_option (λ n, icontains (personaname row) n) false (searched name)
  || from_option (λ u, iexact (SteamPlayer.profileurl row) u) false
       (searched profileurl)
  || from_option (λ z, steamid row =? z) false (searched_id communityid).
End filter_by_name.
End SteamPlayerMethods.

(** ** Items and Heroes *)

Module Items.
Record t : Type := mk {
  item_id : Z;
  client_name : string
}.

Definition get_code_name (self : t) : string :=
  if contains "recipe" (client_name self) then "recipe"
  else slice_from 5 (client_name self).
End Items.

Module Heroes.
Record t : Type := mk {
  hero_id : Z;
  client_name : string;
  dota2_name : string
}.

Definition get_code_name (self : t) : string :=
  slice_from 14 (client_name self).

Definition get_url (self : t) : string :=
  replace " " "-" (dota2_name self).
End Heroes.

(** ** MatchPicksBans *)

Module MatchPicksBans.
Record t : Type := mk {
  match_details : MatchDetails.t;
  is_pick : pyval;
  hero_id_id : pyval;
  team : pyval;
  order : pyval
}.

Definition from_json_response
    (match_details : MatchDetails.t) (json : gmap string pyval) : result t :=
  is_pick ← getitem json "is_pick";
  hero_id_id ← getitem json "hero_id";
  team ← getitem json "team";
  order ← getitem json "order";
  mret (mk match_details is_pick hero_id_id team order).
End MatchPicksBans.

(** ** MatchDetails: roster, duration and tower status *)

Module MatchDetailsMethods.
Import MatchDetails.

Section roster.
(** The stored rows of [MatchDetailsPlayerEntry]; the roster queries read
    two of their columns, the match they belong to and the player slot. *)
Context {Entry : Type}.
Variable match_details_id : Entry → Z.
Variable player_slot : Entry → Z.

(** [self.matchdetailsplayerentry_set]: the entries of this match.  Every
    query on it is ordered by [Meta.ordering = ('player_slot',)]. *)
Definition matchdetailsplayerentry_set (self : t) (entries : list Entry)
    : list Entry :=
  qs_filter (λ entry, match_details_id entry =? match_id self) entries.

Definition get_players (self : t) (entries : list Entry) : list Entry :=
  order_by player_slot (matchdetailsplayerentry_set self entries).

Definition get_dire_players (self : t) (entries : list Entry) : list Entry :=
  order_by player_slot
    (qs_filter (λ entry, 100 <=? player_slot entry)
       (matchdetailsplayerentry_set self entries)).

Definition get_radiant_players (self : t) (entries : list Entry) : list Entry :=
  order_by player_slot
    (qs_filter (λ entry, player_slot entry <? 100)
       (matchdetailsplayerentry_set self entries)).
End roster.

(** ["%02d" % n]. *)
Definition pad2 (n : Z) : string :=
  if (0 <=? n) && (n <? 10) then "0" ++ str n else str n.

(** The outcome of [str(timedelta(seconds=n))]: the constructor carries
    the seconds over into days and raises [OverflowError] beyond
    999999999 days. *)
Inductive timedelta_str : Type :=
  | Rendered (s : string)
  | OverflowError.

Definition str_timedelta_seconds (n : Z) : timedelta_str :=
  let days := n `div` 86400 in
  let seconds := n `mod` 86400 in
  if 999999999 <? Z.abs days then OverflowError
  else
    let mm := seconds `div` 60 in
    let ss := seconds `mod` 60 in
    let hh := mm `div` 60 in
    let mm := mm `mod` 60 in
    let s := str hh ++ ":" ++ pad2 mm ++ ":" ++ pad2 ss in
    Rendered
      (if days =? 0 then s
       else str days ++ " day" ++ (if Z.abs days =? 1 then "" else "s")
              ++ ", " ++ s).

Definition get_duration (self : t) : timedelta_str :=
  str_timedelta_seconds (duration self).

(** Reading an [H:MM:SS] string back as a number of seconds. *)
Definition parse_hms (s : string) : option Z :=
  match split ":" s with
  | [h; m; sec] =>
      hh ← parse_int h; mm ← parse_int m; ss ← parse_int sec;
      Some (hh * 3600 + mm * 60 + ss)
  | _ => None
  end.

(** The decimal digit character of a number from 0 to 9, and the two
    digit characters, tens first, of a number from 0 to 99. *)
Definition digit (n : Z) : ascii := ascii_of_nat (48 + Z.to_nat n).

Definition two_digits (n : Z) : string :=
  String (digit (n `div` 10)) (String (digit (n `mod` 10)) EmptyString).

(** The tower flags as the module's comment lists them. *)
Definition tower_flags : list (string * Z) :=
  [ ("ANCIENT_TOP", 0x400); ("ANCIENT_BOTTOM", 0x200); ("TOP_3", 0x100);
    ("TOP_2", 0x80); ("TOP_1", 0x40); ("MIDDLE_3", 0x20);
    ("MIDDLE_2", 0x10); ("MIDDLE_1", 0x8); ("BOTTOM_3", 0x4);
    ("BOTTOM_2", 0x2); ("BOTTOM_1", 0x1) ].

(** A tower stands when its flag is set in the status mask. *)
Definition standing (mask flag : Z) : bool := Z.land mask flag =? flag.

Definition all_standing (mask : Z) : bool :=
  forallb (λ tower, standing mask tower.2) tower_flags.
End MatchDetailsMethods.

(** ** Required fields of the upstream records *)

(** The first of the given keys that a record lacks. *)
Fixpoint first_missing (json : gmap string pyval) (keys : list string)
    : option string :=
  match keys with
  | [] => None
  | key :: rest =>
      match json !! key with
      | Some _ => first_missing json rest
      | None => Some key
      end
  end.

(** The fields [MatchDetailsPlayerEntry.from_json_response] reads with
    [json[...]] once the hero is known to be non-zero, in the order of its
    keyword arguments. *)
Definition entry_required_keys : list string :=
  [ "player_slot"; "hero_id"; "item_0"; "item_1"; "item_2"; "item_3";
    "item_4"; "item_5"; "kills"; "deaths"; "assists"; "gold"; "last_hits";
    "denies"; "gold_per_min"; "xp_per_min"; "gold_spent"; "hero_damage";
    "tower_damage"; "hero_healing"; "level" ].

Definition picks_bans_keys : list string :=
  [ "is_pick"; "hero_id"; "team"; "order" ].

(** A match-detail player whose slot is empty and whose other fields are
    missing or malformed. *)
Definition empty_player_json : gmap string pyval :=
  list_to_map [ ("hero_id", PInt 0); ("account_id", PStr "anonymous") ].

(** ** Sample rows for the remaining methods *)

Definition sample_profile : SteamPlayer.t :=
  SteamPlayer.mk 76561197960265729 950 "Dendi"
    "http://steamcommunity.com/profiles/76561197960265729/" "" "" "" None.

(** Case-sensitive stand-ins for the database's matching, and decimal
    numerals for [int]. *)
Definition sample_icontains (value text : string) : bool := contains text value.
Definition sample_iexact (value text : string) : bool := String.eqb value text.

(** Roster rows as pairs of match id and player slot. *)
Definition sample_roster : list (Z * Z) :=
  [ (27110133, 130); (27110133, 0); (5, 1); (27110133, 128);
    (27110133, 2); (27110133, 1) ].

(** A match-detail player that lacks the required [kills]. *)
Definition player_without_kills_json : gmap string pyval :=
  delete "kills" player_json.
(** * Properties *)

(** ** Decimal rendering *)

Lemma str_parse_int (n : Z) : parse_int (str n) = Some n.
Proof.
  unfold parse_int, str.
  rewrite NilZero.isi.
  - simpl. by rewrite DecimalZ.of_to.
  - destruct n; simpl; try discriminate.
    intros [= H]. by apply DecimalPos.Unsigned.to_uint_nonnil in H.
  - destruct n; simpl; try discriminate.
    intros [= H]. by apply DecimalPos.Unsigned.to_uint_nonnil in H.
Qed.

Lemma str_inj (m n : Z) : str m = str n → m = n.
Proof.
  intros H. apply (f_equal parse_int) in H.
  rewrite !str_parse_int in H. congruence.
Qed.

Example str_99 : str 99 = "99".
Proof. reflexivity. Qed.

Example str_negative : str (-7) = "-7".
Proof. reflexivity. Qed.

(** ** Label mappings *)

Ltac label_cases :=
  repeat (case Z.eqb_spec; [intros ->; reflexivity | intros ?]);
  unfold label_of; simpl;
  repeat (case_decide; [simpl in *; congruence |]);
  reflexivity.

(** C8: [get_game_type] renders the codes 1 to 13 with the labels of the
    specification's table and every other integer code as its decimal
    numeral. *)
Theorem get_game_type_labels (game_mode : Z) :
  get_game_type game_mode = label_of game_mode_labels game_mode.
Proof. unfold get_game_type. label_cases. Qed.

Example get_game_type_2 : get_game_type 2 = "Captain's Mode".
Proof. reflexivity. Qed.

Example get_game_type_99 : get_game_type 99 = "99".
Proof. reflexivity. Qed.

Lemma get_game_type_unknown (game_mode : Z) :
  game_mode < 1 ∨ 13 < game_mode →
  get_game_type game_mode = str game_mode ∧
  parse_int (get_game_type game_mode) = Some game_mode.
Proof.
  intros H.
  assert (get_game_type game_mode = str game_mode) as ->.
  { unfold get_game_type.
    repeat (case Z.eqb_spec; [intros ->; lia | intros _]). reflexivity. }
  split; [reflexivity | apply str_parse_int].
Qed.

(** C9, as the specification words it, fails: code 0 is rendered
    "Public Match", not "Public". *)
Lemma get_lobby_type_spec_labels_fail :
  get_lobby_type 0 ≠ label_of lobby_type_labels_spec 0.
Proof. vm_compute. discriminate. Qed.

(** C9, amended: [get_lobby_type] renders the codes 0 to 5 as "Public
    Match", "Practice Match", "Tournament Match", "Tutorial", "Co-op Bot
    Match" and "Team Match", and every other integer code as its decimal
    numeral. *)
Theorem get_lobby_type_labels (lobby_type : Z) :
  get_lobby_type lobby_type = label_of lobby_type_labels lobby_type.
Proof. unfold get_lobby_type. label_cases. Qed.

Lemma get_lobby_type_unknown (lobby_type : Z) :
  lobby_type < 0 ∨ 5 < lobby_type →
  get_lobby_type lobby_type = str lobby_type.
Proof.
  intros H. unfold get_lobby_type.
  repeat (case Z.eqb_spec; [intros ->; lia | intros _]). reflexivity.
Qed.

(** ** The staleness query

    Both refresh rules run the same pipeline: keep the rows whose key is
    below a bound, sort by the key, cut to a prefix. *)

Section stale_query.
Context {Row : Type} (field : Row → Z) (bound : Z) (rows : list Row).

#[local] Instance key_le_trans : Transitive (key_le field).
Proof. intros a b c. unfold key_le. lia. Qed.

#[local] Instance key_le_total : Total (key_le field).
Proof. intros a b. unfold key_le. lia. Qed.

Lemma qs_filter_lt :
  qs_filter (λ row, field row <? bound) rows
  = filter (λ row, field row < bound) rows.
Proof.
  unfold qs_filter. apply list_filter_iff. intros row.
  apply Z.ltb_lt.
Qed.

Lemma order_by_perm (l : list Row) : order_by field l ≡ₚ l.
Proof. apply merge_sort_Permutation. Qed.

Lemma order_by_sorted (l : list Row) :
  StronglySorted (key_le field) (order_by field l).
Proof. apply (StronglySorted_merge_sort _). Qed.

Lemma elem_of_stale_sorted (row : Row) :
  row ∈ order_by field (qs_filter (λ row, field row <? bound) rows)
  ↔ row ∈ rows ∧ field row < bound.
Proof.
  rewrite order_by_perm, qs_filter_lt, list_elem_of_filter. tauto.
Qed.

(** The first row of a sorted list is minimal. *)
Lemma sorted_head_least (l tl : list Row) (first row : Row) :
  order_by field l = first :: tl → row ∈ l → field first ≤ field row.
Proof.
  intros Heq Hin.
  pose proof (order_by_sorted l) as Hs. rewrite Heq in Hs.
  rewrite <- (order_by_perm l), Heq in Hin.
  apply StronglySorted_cons in Hs as [Hall _].
  apply elem_of_cons in Hin as [-> | Hin]; [lia |].
  rewrite Forall_forall in Hall. by apply Hall.
Qed.

(** A prefix of a sorted list holds its smallest rows. *)
Lemma sorted_prefix_least (l : list Row) (n : nat) (p q : Row) :
  p ∈ take n (order_by field l) → q ∈ drop n (order_by field l) →
  field p ≤ field q.
Proof.
  intros Hp Hq.
  pose proof (order_by_sorted l) as Hs.
  rewrite <- (take_drop n (order_by field l)) in Hs.
  exact (StronglySorted_app_1_elem_of _ _ _ _ _ Hs Hp Hq).
Qed.
End stale_query.

(** ** Freshness policy *)

(** C1: [SteamPlayer.get_refresh] returns only stored rows that are older
    than [now - PLAYER_FRESHNESS], oldest first, at most 100 of them and as
    many as are due up to that cap; the due rows it leaves out are no older
    than any row it returns, so without the cap biting it returns exactly
    the due rows, and it returns the empty list when no row is due. *)
Theorem SteamPlayer_get_refresh_due
    (objects : list SteamPlayer.t) (now PLAYER_FRESHNESS : Z) :
  let stale p := SteamPlayer.last_refresh p < now - PLAYER_FRESHNESS in
  let due := filter stale objects in
  let res := SteamPlayer.get_refresh now PLAYER_FRESHNESS objects in
  Forall (λ p, p ∈ objects ∧ stale p) res
  ∧ StronglySorted
      (λ a b, SteamPlayer.last_refresh a ≤ SteamPlayer.last_refresh b) res
  ∧ length res = Nat.min 100 (length due)
  ∧ (∃ rest, res ++ rest ≡ₚ due
       ∧ ∀ p q, p ∈ res → q ∈ rest →
           SteamPlayer.last_refresh p ≤ SteamPlayer.last_refresh q)
  ∧ ((length due ≤ 100)%nat → res ≡ₚ due)
  ∧ (due = [] → res = []).
Proof.
  intros stale due res.
  set (sorted := order_by SteamPlayer.last_refresh
    (qs_filter (λ row, SteamPlayer.last_refresh row <? now - PLAYER_FRESHNESS)
       objects)).
  assert (res = take 100 sorted) as Hres by reflexivity.
  assert (sorted ≡ₚ due) as Hperm.
  { unfold sorted. rewrite order_by_perm. by rewrite qs_filter_lt. }
  repeat split.
  - rewrite Forall_forall. intros p Hp. rewrite Hres in Hp.
    apply (subseteq_take 100 sorted) in Hp.
    by apply elem_of_stale_sorted in Hp.
  - rewrite Hres, <- (take_drop 100 sorted).
    eapply StronglySorted_app_1_l. rewrite !take_drop. apply order_by_sorted.
  - rewrite Hres, length_take. by rewrite Hperm.
  - exists (drop 100 sorted). split.
    + by rewrite Hres, take_drop.
    + intros p q Hp Hq. rewrite Hres in Hp.
      by eapply sorted_prefix_least.
  - intros Hle. rewrite Hres, take_ge; [done |]. by rewrite Hperm.
  - intros Hnil. rewrite Hnil in Hperm.
    apply Permutation_nil_r in Hperm. by rewrite Hres, Hperm.
Qed.

Example SteamPlayer_get_refresh_sample :
  SteamPlayer.get_refresh 1000 100 sample_players
  = [ player_at 76561197960265731 50; player_at 76561197960265730 100 ].
Proof. vm_compute. reflexivity. Qed.

Example SteamPlayer_get_refresh_none_due :
  SteamPlayer.get_refresh 1000 960 sample_players = [].
Proof. vm_compute. reflexivity. Qed.

Example SteamPlayer_get_refresh_cap :
  length (SteamPlayer.get_refresh 1000 100
            (player_at 1 <$> seqZ 0 250)) = 100%nat.
Proof. vm_compute. reflexivity. Qed.

Example MatchDetails_get_refresh_sample :
  MatchDetails.get_refresh 1000 100
    [ match_at 1 950; match_at 2 100; match_at 3 50 ]
  = Ok (Some (match_at 3 50)).
Proof. vm_compute. reflexivity. Qed.

Example MatchDetails_get_refresh_none_due :
  MatchDetails.get_refresh 1000 100 [ match_at 1 950 ] = Ok None.
Proof. vm_compute. reflexivity. Qed.

(** C2: [MatchDetails.get_refresh] never raises; it returns at most one
    row, a stored one older than [now - MATCH_FRESHNESS] whose
    [last_refresh] is the smallest among all such rows, and it returns
    [None] exactly when no stored row is that old. *)
Theorem MatchDetails_get_refresh_oldest
    (objects : list MatchDetails.t) (now MATCH_FRESHNESS : Z) :
  let stale m := MatchDetails.last_refresh m < now - MATCH_FRESHNESS in
  match MatchDetails.get_refresh now MATCH_FRESHNESS objects with
  | Ok (Some m) =>
      m ∈ objects ∧ stale m
      ∧ ∀ m', m' ∈ objects → stale m' →
          MatchDetails.last_refresh m ≤ MatchDetails.last_refresh m'
  | Ok None => ∀ m', m' ∈ objects → ¬ stale m'
  | Raise _ => False
  end.
Proof.
  intros stale. unfold MatchDetails.get_refresh.
  destruct (order_by _ _) as [| m tl] eqn:Heq; simpl.
  - intros m' Hin Hstale.
    assert (m' ∈ order_by MatchDetails.last_refresh
      (qs_filter (λ row, MatchDetails.last_refresh row <? now - MATCH_FRESHNESS)
         objects)) as Hm' by by apply elem_of_stale_sorted.
    rewrite Heq in Hm'. by apply elem_of_nil in Hm'.
  - assert (m ∈ objects ∧ stale m) as [Hin Hstale].
    { apply (elem_of_stale_sorted MatchDetails.last_refresh).
      rewrite Heq. left. }
    split; [done |]. split; [done |].
    intros m' Hin' Hstale'.
    eapply sorted_head_least; [exact Heq |].
    rewrite qs_filter_lt. apply list_elem_of_filter. by split.
Qed.

(** ** Low-priority exclusion *)

(** C4: a stored match is left out by [MatchDetails.exclude_low_priority]
    exactly when its lobby type is 4, or it has fewer than 10 human
    players, or it lasted less than 480 seconds, or both tower masks are
    2047.  So a match with 10 human players, duration 481, lobby type 0 and
    tower masks not both 2047 is kept, and a match of duration 479 is left
    out whatever its other fields. *)
Theorem MatchDetails_exclude_low_priority_iff
    (objects : list MatchDetails.t) (m : MatchDetails.t) :
  m ∈ objects →
  let both_intact :=
    MatchDetails.tower_status_radiant m = 2047
    ∧ MatchDetails.tower_status_dire m = 2047 in
  (m ∉ MatchDetails.exclude_low_priority objects
     ↔ MatchDetails.lobby_type m = 4
       ∨ MatchDetails.human_players m < 10
       ∨ MatchDetails.duration m < 480
       ∨ both_intact)
  ∧ (MatchDetails.human_players m = 10 → MatchDetails.duration m = 481 →
     MatchDetails.lobby_type m = 0 → ¬ both_intact →
     m ∈ MatchDetails.exclude_low_priority objects)
  ∧ (MatchDetails.duration m = 479 →
     m ∉ MatchDetails.exclude_low_priority objects).
Proof.
  intros Hin both_intact.
  assert (m ∈ MatchDetails.exclude_low_priority objects
          ↔ ¬ (MatchDetails.lobby_type m = 4
               ∨ MatchDetails.human_players m < 10
               ∨ MatchDetails.duration m < 480
               ∨ both_intact)) as Hkept.
  { unfold MatchDetails.exclude_low_priority, qs_exclude.
    rewrite list_elem_of_filter.
    unfold MatchDetails.low_priority, Q_or, Q_and, both_intact.
    rewrite !orb_false_iff, andb_false_iff, !Z.eqb_neq, !Z.ltb_ge.
    split; [intros [H _]; lia | intros H; split; [lia | done]]. }
  split; [| split].
  - rewrite Hkept. split; [| tauto].
    intros H. unfold both_intact in *. lia.
  - intros H1 H2 H3 H4. apply Hkept. unfold both_intact in *. lia.
  - intros H. rewrite Hkept. intros Hn. apply Hn. lia.
Qed.

(** ** The match-sequence cursor *)

Section cursor.
Import MatchSequenceNumber.

Lemma set_in_range (v : Z) (objects : table) :
  bigint v = true →
  set_last_match_seq_num v objects = Saved (<[1 := v]> objects).
Proof.
  intros Hv. unfold set_last_match_seq_num, save. simpl. by rewrite Hv.
Qed.

Lemma set_out_of_range (v : Z) (objects : table) :
  bigint v = false → set_last_match_seq_num v objects = OutOfRange.
Proof.
  intros Hv. unfold set_last_match_seq_num, save. simpl. by rewrite Hv.
Qed.

Lemma get_after_insert (v : Z) (objects : table) :
  (get_last_match_seq_num (<[1 := v]> objects)).1 = v.
Proof.
  unfold get_last_match_seq_num, get_or_create.
  by rewrite lookup_insert_eq.
Qed.

Lemma step_set (v : Z) (objects : table) :
  step objects (SetLast v)
  = if bigint v then <[1 := v]> objects else objects.
Proof.
  simpl. destruct (bigint v) eqn:Hv.
  - by rewrite set_in_range.
  - by rewrite set_out_of_range.
Qed.

Lemma get_after_get (objects : table) :
  (get_last_match_seq_num (get_last_match_seq_num objects).2).1
  = (get_last_match_seq_num objects).1.
Proof.
  unfold get_last_match_seq_num, get_or_create.
  destruct (objects !! 1) as [v |] eqn:Hv; simpl.
  - by rewrite Hv.
  - by rewrite lookup_insert_eq.
Qed.

Lemma get_of_empty : (get_last_match_seq_num ∅).1 = 0.
Proof. reflexivity. Qed.

(** Each call writes row 1 only. *)
Lemma step_dom (objects : table) (c : call) :
  dom objects ⊆ {[1]} → dom (step objects c) ⊆ {[1]}.
Proof.
  intros Hdom. destruct c as [| v].
  - simpl. unfold get_last_match_seq_num, get_or_create.
    destruct (objects !! 1); simpl; [done |].
    rewrite dom_insert_L. by apply union_least.
  - rewrite step_set. destruct (bigint v); [| done].
    rewrite dom_insert_L. by apply union_least.
Qed.

Lemma run_dom (calls : list call) (objects : table) :
  dom objects ⊆ {[1]} → dom (run calls objects) ⊆ {[1]}.
Proof.
  revert objects. induction calls as [| c calls IH]; intros objects Hdom.
  - done.
  - simpl. apply IH. by apply step_dom.
Qed.

Lemma run_get (calls : list call) (objects : table) :
  (get_last_match_seq_num (run calls objects)).1
  = last_set calls (get_last_match_seq_num objects).1.
Proof.
  revert objects. induction calls as [| [| v] calls IH]; intros objects.
  - done.
  - simpl. rewrite IH. by rewrite get_after_get.
  - change (run (SetLast v :: calls) objects)
      with (run calls (step objects (SetLast v))).
    rewrite IH, step_set. simpl.
    destruct (bigint v); [| done]. by rewrite get_after_insert.
Qed.

Lemma singleton_dom_size (objects : table) :
  dom objects ⊆ {[1]} → (size objects ≤ 1)%nat.
Proof.
  intros Hdom. rewrite <- size_dom.
  apply (subseteq_size (dom objects) {[1]}) in Hdom.
  by rewrite size_singleton in Hdom.
Qed.
End cursor.

Example cursor_history :
  let objects :=
    MatchSequenceNumber.run
      [ MatchSequenceNumber.GetLast; MatchSequenceNumber.SetLast 41;
        MatchSequenceNumber.SetLast 42; MatchSequenceNumber.GetLast ] ∅ in
  (MatchSequenceNumber.get_last_match_seq_num objects).1 = 42
  ∧ map_to_list objects = [ (1, 42) ].
Proof. vm_compute. split; reflexivity. Qed.

(** C7, as stated for every value, fails: the column is a 64-bit
    [BigIntegerField], the write of [2 ^ 63] raises and stores nothing, and
    the read after it yields 0. *)
Lemma set_last_match_seq_num_beyond_bigint :
  MatchSequenceNumber.set_last_match_seq_num (2 ^ 63) ∅
  = MatchSequenceNumber.OutOfRange
  ∧ (MatchSequenceNumber.get_last_match_seq_num
       (MatchSequenceNumber.step ∅ (MatchSequenceNumber.SetLast (2 ^ 63)))).1
    = 0
  ∧ (MatchSequenceNumber.get_last_match_seq_num
       (MatchSequenceNumber.step ∅ (MatchSequenceNumber.SetLast (2 ^ 63)))).1
    ≠ 2 ^ 63.
Proof. split; [| split]; by vm_compute. Qed.

(** C7, amended: the cursor reads 0 before it was ever set; for every
    value [v] of the signed 64-bit range of the column,
    [set_last_match_seq_num v] succeeds and a read right after it yields
    [v], while for every other [v] the write raises and stores nothing;
    and along every history of reads and writes that starts from the empty
    table, a read yields the value of the last write that succeeded (0
    before the first one) and the table never holds a row other than the
    one with primary key 1, hence at most one row. *)
Theorem MatchSequenceNumber_singleton_cursor :
  (MatchSequenceNumber.get_last_match_seq_num ∅).1 = 0
  ∧ (∀ (v : Z) (objects : gmap Z Z),
       - 2 ^ 63 ≤ v < 2 ^ 63 →
       ∃ objects',
         MatchSequenceNumber.set_last_match_seq_num v objects
           = MatchSequenceNumber.Saved objects'
         ∧ (MatchSequenceNumber.get_last_match_seq_num objects').1 = v)
  ∧ (∀ (v : Z) (objects : gmap Z Z),
       ¬ (- 2 ^ 63 ≤ v < 2 ^ 63) →
       MatchSequenceNumber.set_last_match_seq_num v objects
         = MatchSequenceNumber.OutOfRange
       ∧ MatchSequenceNumber.step objects (MatchSequenceNumber.SetLast v)
         = objects)
  ∧ (∀ calls : list MatchSequenceNumber.call,
       let objects := MatchSequenceNumber.run calls ∅ in
       (MatchSequenceNumber.get_last_match_seq_num objects).1
         = MatchSequenceNumber.last_set calls 0
       ∧ dom objects ⊆ {[1]}
       ∧ (size objects ≤ 1)%nat).
Proof.
  split; [apply get_of_empty |]. split; [| split].
  - intros v objects Hv. exists (<[1 := v]> objects). split.
    + apply set_in_range. unfold MatchSequenceNumber.bigint.
      apply andb_true_iff. split; [apply Z.leb_le | apply Z.ltb_lt]; lia.
    + apply get_after_insert.
  - intros v objects Hv.
    assert (MatchSequenceNumber.bigint v = false) as Hout.
    { unfold MatchSequenceNumber.bigint. apply andb_false_iff.
      destruct (Z.leb_spec (- 2 ^ 63) v); [right | by left].
      apply Z.ltb_ge. lia. }
    split; [by apply set_out_of_range |].
    by rewrite step_set, Hout.
  - intros calls objects.
    assert (dom objects ⊆ {[1]}) as Hdom.
    { apply run_dom. set_solver. }
    split; [| split].
    + unfold objects. by rewrite run_get.
    + done.
    + by apply singleton_dom_size.
Qed.

(** ** Ingestion constructors *)

Lemma bind_Ok {A B : Type} (m : result A) (f : A → result B) (b : B) :
  m ≫= f = Ok b → ∃ a, m = Ok a ∧ f a = Ok b.
Proof. destruct m as [a | e]; simpl; [eauto | discriminate]. Qed.

Lemma getitem_Ok (d : gmap string pyval) (key : string) (v : pyval) :
  getitem d key = Ok v ↔ d !! key = Some v.
Proof.
  unfold getitem. destruct (d !! key); split; intros H; congruence.
Qed.

Lemma is_None_get (json : gmap string pyval) (key : string) :
  is_None (get json key) = true ↔ absent_or_null json key.
Proof.
  unfold get, absent_or_null.
  destruct (json !! key) as [v |]; simpl.
  - destruct v; simpl; split; try discriminate; try tauto.
    all: intros [H | H]; congruence.
  - tauto.
Qed.

Lemma get_agree (json json' : gmap string pyval) (key : string) :
  json' !! key = json !! key → get json' key = get json key.
Proof. unfold get. by intros ->. Qed.

Lemma getitem_agree (json json' : gmap string pyval) (key : string) :
  json' !! key = json !! key → getitem json' key = getitem json key.
Proof. unfold getitem. by intros ->. Qed.

Ltac next_bind H :=
  let x := fresh "x" in
  apply bind_Ok in H as (x & _ & H); cbv beta zeta in H.

Section constructors.
Variable convertAccountNumbertoSteam64 : pyval → result pyval.

(** The detail constructor drops a player whose hero is 0. *)
Lemma MatchDetailsPlayerEntry_drops_empty_slot
    (match_details : MatchDetails.t) (json : gmap string pyval) (hero : pyval) :
  json !! "hero_id" = Some hero → eq_int hero 0 = true →
  MatchDetailsPlayerEntry.from_json_response convertAccountNumbertoSteam64
    match_details json = Ok None.
Proof.
  intros Hhero Hzero. unfold MatchDetailsPlayerEntry.from_json_response.
  apply getitem_Ok in Hhero. rewrite Hhero. simpl. by rewrite Hzero.
Qed.

(** The discovery constructor stores whatever hero the record has. *)
Lemma MatchHistoryQueuePlayers_any_hero
    (queue : MatchHistoryQueue.t) (json : gmap string pyval)
    (account slot hero : pyval) :
  convertAccountNumbertoSteam64 (get json "account_id") = Ok account →
  json !! "player_slot" = Some slot → json !! "hero_id" = Some hero →
  MatchHistoryQueuePlayers.from_json_response convertAccountNumbertoSteam64
    queue json
  = Ok (MatchHistoryQueuePlayers.mk queue account slot hero
          (is_None (get json "account_id"))).
Proof.
  intros Hacc Hslot Hhero.
  unfold MatchHistoryQueuePlayers.from_json_response.
  apply getitem_Ok in Hslot, Hhero. rewrite Hacc, Hslot, Hhero. simpl.
  by destruct (is_None _).
Qed.

Lemma MatchDetailsPlayerEntry_is_bot
    (match_details : MatchDetails.t) (json : gmap string pyval)
    (entry : MatchDetailsPlayerEntry.t) :
  MatchDetailsPlayerEntry.from_json_response convertAccountNumbertoSteam64
    match_details json = Ok (Some entry) →
  MatchDetailsPlayerEntry.is_bot entry
  = is_None (get json "account_id") || is_None (get json "leaver_status").
Proof.
  intros H. unfold MatchDetailsPlayerEntry.from_json_response in H.
  apply bind_Ok in H as (hero & _ & H).
  destruct (eq_int hero 0); [discriminate |].
  do 22 next_bind H.
  injection H as <-. simpl. by destruct (_ || _).
Qed.

Lemma MatchHistoryQueuePlayers_is_bot
    (queue : MatchHistoryQueue.t) (json : gmap string pyval)
    (player : MatchHistoryQueuePlayers.t) :
  MatchHistoryQueuePlayers.from_json_response convertAccountNumbertoSteam64
    queue json = Ok player →
  MatchHistoryQueuePlayers.is_bot player = is_None (get json "account_id").
Proof.
  intros H. unfold MatchHistoryQueuePlayers.from_json_response in H.
  do 3 next_bind H.
  injection H as <-. simpl. by destruct (is_None _).
Qed.
End constructors.

(** C3: the discovery constructor has no empty-slot guard.  On a
    participant record whose hero is 0 it builds a participant row with
    hero 0, where the detail constructor returns [None]. *)
Theorem MatchHistoryQueuePlayers_keeps_empty_slot :
  MatchHistoryQueuePlayers.from_json_response
    (steamapi.convertAccountNumbertoSteam64 sample_offset)
    sample_queue empty_slot_json
  = Ok (MatchHistoryQueuePlayers.mk sample_queue
          (PInt (4294967295 + sample_offset)) (PInt 132) (PInt 0) false).
Proof. vm_compute. reflexivity. Qed.

(** C6: on a player record the detail constructor accepts, [is_bot] is
    set exactly when [account_id] is absent or null, or [leaver_status] is
    absent or null. *)
Theorem MatchDetailsPlayerEntry_is_bot_iff
    (convertAccountNumbertoSteam64 : pyval → result pyval)
    (match_details : MatchDetails.t) (json : gmap string pyval)
    (entry : MatchDetailsPlayerEntry.t) :
  MatchDetailsPlayerEntry.from_json_response convertAccountNumbertoSteam64
    match_details json = Ok (Some entry) →
  MatchDetailsPlayerEntry.is_bot entry = true
  ↔ absent_or_null json "account_id" ∨ absent_or_null json "leaver_status".
Proof.
  intros H. rewrite (MatchDetailsPlayerEntry_is_bot _ _ _ _ H).
  by rewrite orb_true_iff, !is_None_get.
Qed.

(** C10: on a participant record the discovery constructor accepts,
    [is_bot] is set exactly when [account_id] is absent or null, and the
    row built is the same for every record that differs from this one in
    [leaver_status] only. *)
Theorem MatchHistoryQueuePlayers_is_bot_iff
    (convertAccountNumbertoSteam64 : pyval → result pyval)
    (queue : MatchHistoryQueue.t) (json : gmap string pyval)
    (player : MatchHistoryQueuePlayers.t) :
  MatchHistoryQueuePlayers.from_json_response convertAccountNumbertoSteam64
    queue json = Ok player →
  (MatchHistoryQueuePlayers.is_bot player = true
     ↔ absent_or_null json "account_id")
  ∧ ∀ json' : gmap string pyval,
      (∀ key, key ≠ "leaver_status" → json' !! key = json !! key) →
      MatchHistoryQueuePlayers.from_json_response
        convertAccountNumbertoSteam64 queue json' = Ok player.
Proof.
  intros H. split.
  - rewrite (MatchHistoryQueuePlayers_is_bot _ _ _ _ H). apply is_None_get.
  - intros json' Hsame. rewrite <- H.
    unfold MatchHistoryQueuePlayers.from_json_response.
    rewrite (get_agree json json' "account_id") by by apply Hsame.
    rewrite (getitem_agree json json' "player_slot") by by apply Hsame.
    rewrite (getitem_agree json json' "hero_id") by by apply Hsame.
    reflexivity.
Qed.

(** ** Identity resolver *)

(** C5: converting an account number to the 64-bit identifier and back
    recovers it, and an absent account number converts to an absent
    identifier, not to zero. *)
Theorem steamapi_round_trip (offset account : Z) :
  (steamapi.convertAccountNumbertoSteam64 offset (PInt account)
     ≫= steamapi.convertSteam64toAccountNumber offset) = Ok (PInt account)
  ∧ steamapi.convertAccountNumbertoSteam64 offset PNone = Ok PNone
  ∧ steamapi.convertAccountNumbertoSteam64 offset PNone ≠ Ok (PInt 0).
Proof.
  split; [| split].
  - simpl. do 2 f_equal. lia.
  - reflexivity.
  - discriminate.
Qed.

(** ** Instances *)

Lemma MatchDetails_exclude_low_priority_iff_witness :
  sample_match ∈ [sample_match]
  ∧ sample_match ∈ MatchDetails.exclude_low_priority [sample_match].
Proof.
  split; [left |].
  apply (MatchDetails_exclude_low_priority_iff [sample_match] sample_match);
    [left | reflexivity | reflexivity | reflexivity |].
  simpl. intros [H _]. discriminate H.
Defined.

Lemma MatchDetailsPlayerEntry_is_bot_iff_witness :
  ∃ entry,
    MatchDetailsPlayerEntry.from_json_response
      (steamapi.convertAccountNumbertoSteam64 sample_offset)
      sample_match player_json = Ok (Some entry)
    ∧ MatchDetailsPlayerEntry.account_id_id entry = PInt 76561197960266962
    ∧ MatchDetailsPlayerEntry.is_bot entry = true.
Proof.
  eexists. split; [vm_compute; reflexivity |]. split; [reflexivity |].
  apply (MatchDetailsPlayerEntry_is_bot_iff
           (steamapi.convertAccountNumbertoSteam64 sample_offset)
           sample_match player_json); [vm_compute; reflexivity |].
  right. left. vm_compute. reflexivity.
Defined.

Lemma MatchHistoryQueuePlayers_is_bot_iff_witness :
  ∃ player,
    MatchHistoryQueuePlayers.from_json_response
      (steamapi.convertAccountNumbertoSteam64 sample_offset)
      sample_queue anonymous_slot_json = Ok player
    ∧ MatchHistoryQueuePlayers.is_bot player = true.
Proof.
  eexists. split; [vm_compute; reflexivity |].
  apply (MatchHistoryQueuePlayers_is_bot_iff
           (steamapi.convertAccountNumbertoSteam64 sample_offset)
           sample_queue anonymous_slot_json); [vm_compute; reflexivity |].
  left. vm_compute. reflexivity.
Defined.

(** The same record, with an account and without [leaver_status], is a bot
    to the detail constructor and not to the discovery constructor. *)
Example is_bot_differs :
  ∃ entry player,
    MatchDetailsPlayerEntry.from_json_response
      (steamapi.convertAccountNumbertoSteam64 sample_offset)
      sample_match player_json = Ok (Some entry)
    ∧ MatchHistoryQueuePlayers.from_json_response
        (steamapi.convertAccountNumbertoSteam64 sample_offset)
        sample_queue player_json = Ok player
    ∧ MatchDetailsPlayerEntry.is_bot entry = true
    ∧ MatchHistoryQueuePlayers.is_bot player = false.
Proof. do 2 eexists. repeat split; vm_compute; reflexivity. Qed.

(** * Properties of the remaining methods *)

(** ** Splitting strings *)

Lemma append_cons (c : ascii) (a b : string) :
  String c a ++ b = String c (a ++ b).
Proof. reflexivity. Qed.

Lemma append_assoc (a b c : string) : (a ++ b) ++ c = a ++ (b ++ c).
Proof.
  induction a as [| x a IH]; [done |].
  rewrite !append_cons. by rewrite IH.
Qed.

Lemma split_nonempty (sep : ascii) (s : string) : split sep s ≠ [].
Proof.
  destruct s as [| c rest]; simpl; [done |].
  destruct (Ascii.eqb c sep); [done |].
  by destruct (split sep rest).
Qed.

Lemma split_no_sep (sep : ascii) (s : string) :
  sep ∉ chars s → split sep s = [s].
Proof.
  induction s as [| c rest IH]; simpl; intros Hnot; [done |].
  apply not_elem_of_cons in Hnot as [Hne Hrest].
  destruct (Ascii.eqb_spec c sep) as [-> | _]; [done |].
  by rewrite IH.
Qed.

Lemma split_app_sep (sep : ascii) (a b : string) :
  sep ∉ chars b →
  split sep (a ++ String sep b) = (split sep a ++ [b])%list.
Proof.
  intros Hb. induction a as [| c rest IH]; simpl.
  - rewrite Ascii.eqb_refl. by rewrite split_no_sep.
  - destruct (Ascii.eqb c sep); rewrite IH; [done |].
    pose proof (split_nonempty sep rest) as Hne.
    by destruct (split sep rest).
Qed.

Lemma split_sep_length (sep : ascii) (s : string) :
  sep ∈ chars s → (2 ≤ length (split sep s))%nat.
Proof.
  induction s as [| c rest IH]; simpl; intros Hin.
  - by apply elem_of_nil in Hin.
  - destruct (Ascii.eqb_spec c sep) as [-> | Hne].
    + pose proof (split_nonempty sep rest).
      destruct (split sep rest); simpl; [done | lia].
    + apply elem_of_cons in Hin as [-> | Hin]; [done |].
      specialize (IH Hin). destruct (split sep rest); simpl in *; lia.
Qed.

Lemma item_from_end_Raise {A : Type} (k : nat) (l : list A) (e : exn) :
  item_from_end k l = Raise e ↔ e = IndexError ∧ (length l ≤ k)%nat.
Proof.
  unfold item_from_end.
  destruct (reverse l !! k) as [x |] eqn:Hx.
  - apply lookup_lt_Some in Hx. rewrite length_reverse in Hx.
    split; [discriminate | intros [_ ?]; lia].
  - apply lookup_ge_None in Hx. rewrite length_reverse in Hx.
    split; [intros [= <-]; done | intros [-> _]; done].
Qed.

(** ** SteamPlayer: the profile handle *)

(** X1: for a profile URL of the shape [.../<id>/<last>], with no slash in
    [<id>] and [<last>], [get_id_or_url] returns [<id>]; so the usual
    [http://steamcommunity.com/profiles/<id>/] yields [<id>]. *)
Theorem get_id_or_url_segment
    (self : SteamPlayer.t) (base id last : string) :
  SteamPlayer.profileurl self = base ++ String "/" (id ++ String "/" last) →
  "/"%char ∉ chars id → "/"%char ∉ chars last →
  SteamPlayerMethods.get_id_or_url self = Ok (PStr id).
Proof.
  intros Hurl Hid Hlast. unfold SteamPlayerMethods.get_id_or_url.
  assert (split "/" (SteamPlayer.profileurl self)
          = ((split "/" base ++ [id]) ++ [last])%list) as Hsplit.
  { rewrite Hurl.
    assert (base ++ String "/" (id ++ String "/" last)
            = (base ++ String "/" id) ++ String "/" last) as ->.
    { by rewrite append_assoc, append_cons. }
    by rewrite !split_app_sep. }
  rewrite Hsplit.
  destruct (SteamPlayer.profileurl self) as [| c rest] eqn:Hp.
  - destruct base; discriminate.
  - unfold item_from_end. by rewrite !reverse_app.
Qed.

(** X2: [get_id_or_url] answers with the numeric [steamid] exactly when
    the profile URL is empty, and it raises [IndexError] exactly when the
    profile URL is non-empty and has no slash. *)
Theorem get_id_or_url_edges (self : SteamPlayer.t) :
  (SteamPlayerMethods.get_id_or_url self = Ok (PInt (SteamPlayer.steamid self))
     ↔ SteamPlayer.profileurl self = "")
  ∧ (∀ e, SteamPlayerMethods.get_id_or_url self = Raise e
       ↔ e = IndexError ∧ SteamPlayer.profileurl self ≠ ""
         ∧ "/"%char ∉ chars (SteamPlayer.profileurl self)).
Proof.
  unfold SteamPlayerMethods.get_id_or_url.
  destruct (SteamPlayer.profileurl self) as [| c rest] eqn:Hp.
  - split; [done |]. intros e. split; [discriminate | intros (_ & ? & _); done].
  - set (url := String c rest).
    destruct (item_from_end 1 (split "/" url)) as [part | e'] eqn:Hitem; simpl.
    + split; [split; discriminate |].
      intros e. split; [discriminate |]. intros (_ & _ & Hno).
      rewrite (split_no_sep "/" url Hno) in Hitem. discriminate.
    + split; [split; discriminate |].
      apply item_from_end_Raise in Hitem as [-> Hlen].
      intros e. split.
      * intros [= <-]. split; [done |]. split; [done |].
        intros Hin. apply (split_sep_length "/" url) in Hin. lia.
      * by intros (-> & _).
Qed.

(** ** SteamPlayer: lookups *)

Lemma filter_unique_key {Row : Type} (key : Row → Z) (k : Z) (rows : list Row) :
  NoDup (key <$> rows) →
  (length (filter (λ row, (key row =? k)%Z = true) rows) ≤ 1)%nat.
Proof.
  induction rows as [| row rows IH]; simpl; intros Hnd; [lia |].
  apply NoDup_cons in Hnd as [Hnotin Hnd].
  rewrite filter_cons. case_decide as Hk; [| by apply IH].
  apply Z.eqb_eq in Hk. simpl.
  destruct (filter _ rows) as [| other more] eqn:Hf; simpl; [lia |].
  exfalso. apply Hnotin.
  assert (other ∈ filter (λ row, (key row =? k) = true) rows) as Hin
    by (rewrite Hf; left).
  apply list_elem_of_filter in Hin as [Hother Hin].
  apply Z.eqb_eq in Hother. rewrite Hk, <- Hother.
  by apply list_elem_of_fmap_2.
Qed.

(** X3: on a table whose [steamid]s are pairwise distinct (the primary
    key), [get_by_id] never raises: it returns a player exactly when that
    player is stored under the given id, and [None] exactly when no stored
    player has the id. *)
Theorem get_by_id_lookup (communityid : Z) (objects : list SteamPlayer.t) :
  NoDup (SteamPlayer.steamid <$> objects) →
  (∀ player,
     SteamPlayerMethods.get_by_id communityid objects
       = SteamPlayerMethods.Found (Some player)
     ↔ player ∈ objects ∧ SteamPlayer.steamid player = communityid)
  ∧ (SteamPlayerMethods.get_by_id communityid objects
       = SteamPlayerMethods.Found None
     ↔ ∀ player, player ∈ objects → SteamPlayer.steamid player ≠ communityid)
  ∧ SteamPlayerMethods.get_by_id communityid objects
      ≠ SteamPlayerMethods.MultipleObjectsReturned.
Proof.
  intros Hnd.
  pose proof (filter_unique_key SteamPlayer.steamid communityid objects Hnd)
    as Hlen.
  assert (∀ player,
    player ∈ filter (λ row, (SteamPlayer.steamid row =? communityid) = true)
               objects
    ↔ player ∈ objects ∧ SteamPlayer.steamid player = communityid) as Hmem.
  { intros player. rewrite list_elem_of_filter, Z.eqb_eq. tauto. }
  unfold SteamPlayerMethods.get_by_id, SteamPlayerMethods.objects_get,
    qs_filter.
  destruct (filter _ objects) as [| row [| row' more]]; simpl in Hlen.
  - split; [| split]; [| | done].
    + intros player. split; [done |].
      intros Hin. apply Hmem in Hin. by apply elem_of_nil in Hin.
    + split; [| done]. intros _ player Hin Heq.
      assert (player ∈ @nil SteamPlayer.t) as Hnil by by apply Hmem.
      by apply elem_of_nil in Hnil.
  - split; [| split]; [| | done].
    + intros player. split.
      * intros [= <-]. apply Hmem. left.
      * intros Hin. apply Hmem in Hin.
        apply list_elem_of_singleton in Hin. by subst.
    + split; [done |]. intros Hnone. exfalso.
      assert (row ∈ [row]) as Hin by left.
      apply Hmem in Hin as [Hin Heq]. by apply (Hnone row).
  - lia.
Qed.

(** Without the uniqueness of the key the lookup can raise. *)
Example get_by_id_duplicate :
  SteamPlayerMethods.get_by_id 7 [ player_at 7 10; player_at 7 20 ]
  = SteamPlayerMethods.MultipleObjectsReturned.
Proof. reflexivity. Qed.

Section filter_by_name.
Import SteamPlayerMethods.
Variable icontains : string → string → bool.
Variable iexact : string → string → bool.
Variable int_of_str : string → option Z.

Lemma filter_Q_ext (q q' : Q (Row := SteamPlayer.t)) (objects : list SteamPlayer.t) :
  (∀ row, q row = q' row) → qs_filter q objects = qs_filter q' objects.
Proof.
  intros Heq. unfold qs_filter. apply list_filter_iff.
  intros row. by rewrite Heq.
Qed.

(** What [filter_by_name] returns when it does not raise. *)
Lemma filter_by_name_Ok
    (name profileurl : option string) (communityid : communityid_arg)
    (count : nat) (objects : list SteamPlayer.t) :
  ¬ (name = None ∧ profileurl = None ∧ communityid = CNone) →
  filter_by_name icontains iexact int_of_str name profileurl communityid
    count objects
  = Ok (take count
          match searched name, searched profileurl,
                searched_id int_of_str communityid with
          | None, None, None => objects
          | _, _, _ =>
              qs_filter (hit icontains iexact int_of_str name profileurl
                           communityid) objects
          end).
Proof.
  intros Hgiven.
  assert (filter_by_name icontains iexact int_of_str name profileurl
            communityid count objects
          = Ok (slice_to count
                  (filter_Q
                     (let f := match searched name with
                               | Some n => Q_ior None
                                   (λ row, icontains (SteamPlayer.personaname row) n)
                               | None => None
                               end in
                      let f := match searched profileurl with
                               | Some u => Q_ior f
                                   (λ row, iexact (SteamPlayer.profileurl row) u)
                               | None => f
                               end in
                      match searched_id int_of_str communityid with
                      | Some z => Q_ior f (λ row, SteamPlayer.steamid row =? z)
                      | None => f
                      end) objects))) as ->.
  { destruct name as [[| c n] |], profileurl as [[| c' u] |],
      communityid as [| z | [| c'' s]]; simpl;
      try (exfalso; apply Hgiven; done);
      try destruct (z =? 0); try destruct (int_of_str _); reflexivity. }
  unfold slice_to, hit. f_equal. f_equal.
  destruct (searched name) as [n |], (searched profileurl) as [u |],
    (searched_id int_of_str communityid) as [z |]; simpl;
    try reflexivity; apply filter_Q_ext; intros row;
    unfold Q_or; simpl;
    repeat rewrite orb_false_r; reflexivity.
Qed.

(** X4: [filter_by_name] raises only [ValueError], and only when the
    name, the profile URL and the community id are all [None]; a community
    id that is not a number is skipped without an error. *)
Theorem filter_by_name_raises
    (name profileurl : option string) (communityid : communityid_arg)
    (count : nat) (objects : list SteamPlayer.t) (e : exn) :
  filter_by_name icontains iexact int_of_str name profileurl communityid
    count objects = Raise e
  ↔ e = ValueError ∧ name = None ∧ profileurl = None ∧ communityid = CNone.
Proof.
  split.
  - intros H.
    destruct name as [n |], profileurl as [u |], communityid as [| z | s];
      try (rewrite filter_by_name_Ok in H by (intros (? & ? & ?); done);
           discriminate).
    simpl in H. by injection H as <-.
  - by intros (-> & -> & -> & ->).
Qed.

(** X5: when a criterion takes part in the search (a non-empty name, a
    non-empty profile URL, a community id that is a non-zero integer or a
    string [int] accepts), [filter_by_name] returns, in table order, the
    first [count] rows that meet at least one of the criteria taking part;
    an empty string, the integer 0 and a non-numeric id are ignored. *)
Theorem filter_by_name_hits
    (name profileurl : option string) (communityid : communityid_arg)
    (count : nat) (objects : list SteamPlayer.t) :
  is_Some (searched name) ∨ is_Some (searched profileurl)
    ∨ is_Some (searched_id int_of_str communityid) →
  ∃ rows,
    filter_by_name icontains iexact int_of_str name profileurl communityid
      count objects = Ok rows
    ∧ rows = take count
               (filter (λ row, hit icontains iexact int_of_str name profileurl
                                 communityid row = true) objects)
    ∧ rows `sublist_of` objects
    ∧ (length rows ≤ count)%nat.
Proof.
  intros Hsome. eexists. split; [| split; [reflexivity |]].
  - rewrite filter_by_name_Ok.
    + destruct (searched name), (searched profileurl),
        (searched_id int_of_str communityid); try reflexivity.
      destruct Hsome as [[? [=]] | [[? [=]] | [? [=]]]].
    + intros (-> & -> & ->). simpl in Hsome.
      destruct Hsome as [[? [=]] | [[? [=]] | [? [=]]]].
  - split.
    + etrans; [apply sublist_take | apply sublist_filter].
    + rewrite length_take. lia.
Qed.

(** X6: when arguments are given but none takes part in the search (an
    empty name, an empty profile URL, the id 0 or a non-numeric id), the
    filter stays empty and [filter_by_name] returns the first [count] rows
    of the whole table. *)
Theorem filter_by_name_blank
    (name profileurl : option string) (communityid : communityid_arg)
    (count : nat) (objects : list SteamPlayer.t) :
  ¬ (name = None ∧ profileurl = None ∧ communityid = CNone) →
  searched name = None → searched profileurl = None →
  searched_id int_of_str communityid = None →
  filter_by_name icontains iexact int_of_str name profileurl communityid
    count objects = Ok (take count objects).
Proof.
  intros Hgiven Hn Hu Hid.
  rewrite filter_by_name_Ok by done. by rewrite Hn, Hu, Hid.
Qed.
End filter_by_name.

(** ** Items and Heroes *)

Lemma prefix_refl (s : string) : String.prefix s s = true.
Proof.
  induction s as [| c s IH]; simpl; [done |].
  destruct (ascii_dec c c); [done | congruence].
Qed.

Lemma contains_unfold (needle s : string) :
  contains needle s
  = String.prefix needle s
    || match s with
       | EmptyString => false
       | String _ rest => contains needle rest
       end.
Proof. by destruct s. Qed.

Lemma contains_refl (s : string) : contains s s = true.
Proof. by rewrite contains_unfold, prefix_refl. Qed.

Lemma contains_slice_from (needle s : string) (n : nat) :
  contains needle (slice_from n s) = true → contains needle s = true.
Proof.
  revert s. induction n as [| n IH]; intros s; simpl; [done |].
  destruct s as [| c rest]; [done |].
  intros H. apply IH in H.
  rewrite contains_unfold, H. apply orb_true_r.
Qed.

(** X7: the code name of an item is "recipe" exactly when its client name
    mentions "recipe" anywhere; and for a client name [item_<x>] it is
    [<x>] unless [<x>] mentions "recipe". *)
Theorem Items_get_code_name_recipe (self : Items.t) :
  (Items.get_code_name self = "recipe"
     ↔ contains "recipe" (Items.client_name self) = true)
  ∧ ∀ (item_id : Z) (x : string),
      Items.get_code_name (Items.mk item_id ("item_" ++ x))
      = if contains "recipe" x then "recipe" else x.
Proof.
  split.
  - unfold Items.get_code_name.
    destruct (contains "recipe" (Items.client_name self)) eqn:Hc; [done |].
    split; [| done]. intros Heq.
    rewrite <- Hc. apply (contains_slice_from _ _ 5).
    rewrite Heq. apply contains_refl.
  - intros item_id x. unfold Items.get_code_name. simpl.
    destruct x as [| c x]; [reflexivity |].
    simpl. reflexivity.
Qed.

Lemma replace_chars (old new : ascii) (s : string) :
  chars (replace old new s)
  = (λ c, if Ascii.eqb c old then new else c) <$> chars s.
Proof. induction s as [| c s IH]; simpl; [done | by rewrite IH]. Qed.

Lemma replace_absent (old new : ascii) (s : string) :
  old ∉ chars s → replace old new s = s.
Proof.
  induction s as [| c s IH]; simpl; intros Hnot; [done |].
  apply not_elem_of_cons in Hnot as [Hne Hrest].
  destruct (Ascii.eqb_spec c old) as [-> | _]; [done |].
  by rewrite IH.
Qed.

(** X8: the URL form of a hero name has no space, has as many characters
    as the name, differs from it only where the name has a space (a hyphen
    stands there), and is the name itself when the name has no space. *)
Theorem Heroes_get_url_hyphens (self : Heroes.t) :
  (" "%char ∉ chars (Heroes.get_url self))
  ∧ length (chars (Heroes.get_url self))
    = length (chars (Heroes.dota2_name self))
  ∧ (∀ (i : nat) (c : ascii),
       chars (Heroes.dota2_name self) !! i = Some c →
       chars (Heroes.get_url self) !! i
       = Some (if Ascii.eqb c " " then "-"%char else c))
  ∧ (" "%char ∉ chars (Heroes.dota2_name self) →
     Heroes.get_url self = Heroes.dota2_name self).
Proof.
  unfold Heroes.get_url. rewrite replace_chars.
  split; [| split; [| split]].
  - intros Hin. apply list_elem_of_fmap in Hin as (c & Hc & _).
    destruct (Ascii.eqb_spec c " "); [discriminate | congruence].
  - by rewrite length_fmap.
  - intros i c Hi. by rewrite list_lookup_fmap, Hi.
  - apply replace_absent.
Qed.

(** ** MatchDetails: the roster *)

Section roster.
Import MatchDetailsMethods.
Context {Entry : Type}.
Variable match_details_id : Entry → Z.
Variable player_slot : Entry → Z.

Lemma filter_slot_split (rows : list Entry) :
  rows ≡ₚ qs_filter (λ entry, player_slot entry <? 100) rows
          ++ qs_filter (λ entry, 100 <=? player_slot entry) rows.
Proof.
  unfold qs_filter.
  induction rows as [| row rows IH]; [done |].
  rewrite !filter_cons.
  destruct (Z.ltb_spec (player_slot row) 100) as [Hlt | Hge];
    destruct (Z.leb_spec 100 (player_slot row)) as [Hle | Hlt'];
    try lia; repeat case_decide; try done; simpl.
  - by rewrite <- IH.
  - rewrite <- Permutation_middle. by rewrite <- IH.
Qed.

Lemma radiant_slots (self : MatchDetails.t) (entries : list Entry) :
  Forall (λ entry, player_slot entry < 100)
    (get_radiant_players match_details_id player_slot self entries).
Proof.
  rewrite Forall_forall. intros entry Hin.
  unfold get_radiant_players in Hin.
  rewrite order_by_perm in Hin. unfold qs_filter in Hin.
  apply list_elem_of_filter in Hin as [Hlt _]. by apply Z.ltb_lt.
Qed.

Lemma dire_slots (self : MatchDetails.t) (entries : list Entry) :
  Forall (λ entry, 100 ≤ player_slot entry)
    (get_dire_players match_details_id player_slot self entries).
Proof.
  rewrite Forall_forall. intros entry Hin.
  unfold get_dire_players in Hin.
  rewrite order_by_perm in Hin. unfold qs_filter in Hin.
  apply list_elem_of_filter in Hin as [Hle _]. by apply Z.leb_le.
Qed.

Lemma sides_perm (self : MatchDetails.t) (entries : list Entry) :
  get_radiant_players match_details_id player_slot self entries
  ++ get_dire_players match_details_id player_slot self entries
  ≡ₚ get_players match_details_id player_slot self entries.
Proof.
  unfold get_radiant_players, get_dire_players, get_players.
  rewrite !order_by_perm. symmetry. apply filter_slot_split.
Qed.

Lemma sides_sorted (self : MatchDetails.t) (entries : list Entry) :
  StronglySorted (key_le player_slot)
    (get_radiant_players match_details_id player_slot self entries
     ++ get_dire_players match_details_id player_slot self entries).
Proof.
  apply StronglySorted_app_2; [| apply order_by_sorted ..].
  intros a b Ha Hb.
  pose proof (radiant_slots self entries) as Hrad.
  pose proof (dire_slots self entries) as Hdire.
  rewrite Forall_forall in Hrad, Hdire.
  specialize (Hrad a Ha). specialize (Hdire b Hb). unfold key_le. lia.
Qed.

Lemma elem_of_get_players (self : MatchDetails.t) (entries : list Entry)
    (entry : Entry) :
  entry ∈ get_players match_details_id player_slot self entries
  ↔ entry ∈ entries ∧ match_details_id entry = MatchDetails.match_id self.
Proof.
  unfold get_players. rewrite order_by_perm.
  unfold matchdetailsplayerentry_set, qs_filter.
  rewrite list_elem_of_filter, Z.eqb_eq. tauto.
Qed.

(** X9: the radiant players (slot below 100) followed by the dire players
    (slot 100 and up) are the players of the match, each once, and in
    ascending slot order, as [get_players] lists them; every entry listed
    belongs to the match. *)
Theorem roster_sides (self : MatchDetails.t) (entries : list Entry) :
  let radiant := get_radiant_players match_details_id player_slot self entries in
  let dire := get_dire_players match_details_id player_slot self entries in
  let players := get_players match_details_id player_slot self entries in
  radiant ++ dire ≡ₚ players
  ∧ StronglySorted (key_le player_slot) (radiant ++ dire)
  ∧ StronglySorted (key_le player_slot) players
  ∧ Forall (λ entry, player_slot entry < 100) radiant
  ∧ Forall (λ entry, 100 ≤ player_slot entry) dire
  ∧ (∀ entry, entry ∈ players
       ↔ entry ∈ entries ∧ match_details_id entry = MatchDetails.match_id self).
Proof.
  intros radiant dire players.
  split; [apply sides_perm |].
  split; [apply sides_sorted |].
  split; [apply order_by_sorted |].
  split; [apply radiant_slots |].
  split; [apply dire_slots |].
  intros entry. apply elem_of_get_players.
Qed.

(** X10: when no two entries of the match share a slot, [get_players] is
    the list of radiant players followed by the list of dire players. *)
Theorem roster_concat (self : MatchDetails.t) (entries : list Entry) :
  (∀ a b, a ∈ entries → b ∈ entries →
     match_details_id a = MatchDetails.match_id self →
     match_details_id b = MatchDetails.match_id self →
     player_slot a = player_slot b → a = b) →
  get_players match_details_id player_slot self entries
  = (get_radiant_players match_details_id player_slot self entries
     ++ get_dire_players match_details_id player_slot self entries)%list.
Proof.
  intros Hslots.
  apply (StronglySorted_unique_strong (key_le player_slot));
    [| apply order_by_sorted | apply sides_sorted
     | symmetry; apply sides_perm].
  intros a b Ha Hb Hab Hba.
  rewrite sides_perm in Hb.
  apply elem_of_get_players in Ha as [Ha Hida].
  apply elem_of_get_players in Hb as [Hb Hidb].
  apply Hslots; try done. unfold key_le in *. lia.
Qed.
End roster.

(** ** MatchDetails: duration *)

Lemma checked_below (check : Z → bool) (bound : Z) :
  forallb check (seqZ 0 bound) = true →
  ∀ n, 0 ≤ n < bound → check n = true.
Proof.
  intros Hall n Hn. rewrite forallb_forall in Hall. apply Hall.
  apply list_elem_of_In, elem_of_seqZ. lia.
Qed.

Lemma pad2_digits (n : Z) :
  0 ≤ n < 60 →
  (":"%char ∉ chars (MatchDetailsMethods.pad2 n))
  ∧ parse_int (MatchDetailsMethods.pad2 n) = Some n.
Proof.
  intros Hn.
  pose proof (checked_below
    (λ k, bool_decide ((":"%char ∉ chars (MatchDetailsMethods.pad2 k))
                       ∧ parse_int (MatchDetailsMethods.pad2 k) = Some k))
    60) as Hcheck.
  specialize (Hcheck ltac:(vm_compute; reflexivity) n Hn).
  by apply bool_decide_eq_true_1 in Hcheck.
Qed.

Lemma str_hours (n : Z) :
  0 ≤ n < 24 → ":"%char ∉ chars (str n).
Proof.
  intros Hn.
  pose proof (checked_below (λ k, bool_decide (":"%char ∉ chars (str k))) 24)
    as Hcheck.
  specialize (Hcheck ltac:(vm_compute; reflexivity) n Hn).
  by apply bool_decide_eq_true_1 in Hcheck.
Qed.

Lemma split_three (a b c : string) :
  ":"%char ∉ chars a → ":"%char ∉ chars b → ":"%char ∉ chars c →
  split ":" (a ++ ":" ++ b ++ ":" ++ c) = [a; b; c].
Proof.
  intros Ha Hb Hc.
  change (a ++ ":" ++ b ++ ":" ++ c) with (a ++ String ":" (b ++ String ":" c)).
  assert (a ++ String ":" (b ++ String ":" c)
          = (a ++ String ":" b) ++ String ":" c) as ->
    by by rewrite append_assoc, append_cons.
  rewrite (split_app_sep ":" _ c Hc), (split_app_sep ":" a b Hb).
  by rewrite (split_no_sep ":" a Ha).
Qed.

Lemma pad2_two_digits (n : Z) :
  0 ≤ n < 60 → MatchDetailsMethods.pad2 n = MatchDetailsMethods.two_digits n.
Proof.
  intros Hn.
  pose proof (checked_below
    (λ k, bool_decide (MatchDetailsMethods.pad2 k
                       = MatchDetailsMethods.two_digits k)) 60) as Hcheck.
  specialize (Hcheck ltac:(vm_compute; reflexivity) n Hn).
  by apply bool_decide_eq_true_1 in Hcheck.
Qed.

(** X11: for a duration of less than a day (and not negative),
    [get_duration] renders [H:MM:SS]: the hours as a decimal numeral
    without padding, a colon, the minutes as exactly two digits, a colon,
    the seconds as exactly two digits, where hours below 24, minutes below
    60 and seconds below 60 add up to the stored number of seconds; and
    the duration is read back from that string. *)
Theorem get_duration_hms (self : MatchDetails.t) :
  0 ≤ MatchDetails.duration self < 86400 →
  ∃ h m s : Z,
    0 ≤ h < 24 ∧ 0 ≤ m < 60 ∧ 0 ≤ s < 60
    ∧ h * 3600 + m * 60 + s = MatchDetails.duration self
    ∧ MatchDetailsMethods.get_duration self
      = MatchDetailsMethods.Rendered
          (str h ++ ":" ++ MatchDetailsMethods.two_digits m
             ++ ":" ++ MatchDetailsMethods.two_digits s)
    ∧ MatchDetailsMethods.parse_hms
        (str h ++ ":" ++ MatchDetailsMethods.two_digits m
           ++ ":" ++ MatchDetailsMethods.two_digits s)
      = Some (MatchDetails.duration self).
Proof.
  intros Hd.
  unfold MatchDetailsMethods.get_duration,
    MatchDetailsMethods.str_timedelta_seconds.
  set (d := MatchDetails.duration self) in *.
  rewrite (Z.div_small d 86400), (Z.mod_small d 86400) by lia.
  cbv zeta. simpl (999999999 <? Z.abs 0). cbv iota. simpl (0 =? 0). cbv iota.
  pose proof (Z.div_mod d 60 ltac:(lia)) as Hd60.
  pose proof (Z.mod_pos_bound d 60 ltac:(lia)) as Hss.
  pose proof (Z.div_mod (d `div` 60) 60 ltac:(lia)) as Hm60.
  pose proof (Z.mod_pos_bound (d `div` 60) 60 ltac:(lia)) as Hmm.
  assert (0 ≤ (d `div` 60) `div` 60 < 24) as Hhh.
  { split; [apply Z.div_pos; [apply Z.div_pos |]; lia |].
    apply Z.div_lt_upper_bound; [lia |].
    apply Z.div_lt_upper_bound; lia. }
  exists ((d `div` 60) `div` 60), ((d `div` 60) `mod` 60), (d `mod` 60).
  split; [done |]. split; [done |]. split; [done |]. split; [lia |].
  rewrite <- !pad2_two_digits by done.
  split; [reflexivity |].
  destruct (pad2_digits _ Hss) as [Hss1 Hss2].
  destruct (pad2_digits _ Hmm) as [Hmm1 Hmm2].
  unfold MatchDetailsMethods.parse_hms.
  rewrite (split_three _ _ _ (str_hours _ Hhh) Hmm1 Hss1).
  rewrite str_parse_int, Hmm2, Hss2. simpl. f_equal. lia.
Qed.

(** X12: [get_duration] raises [OverflowError] exactly for durations
    outside 999999999 days either way, so never for a value of a 32-bit
    integer column. *)
Theorem get_duration_overflow (self : MatchDetails.t) :
  (MatchDetailsMethods.get_duration self = MatchDetailsMethods.OverflowError
     ↔ MatchDetails.duration self < - 999999999 * 86400
       ∨ 1000000000 * 86400 ≤ MatchDetails.duration self)
  ∧ (- 2 ^ 31 ≤ MatchDetails.duration self < 2 ^ 31 →
     MatchDetailsMethods.get_duration self
       ≠ MatchDetailsMethods.OverflowError).
Proof.
  assert (MatchDetailsMethods.get_duration self
            = MatchDetailsMethods.OverflowError
          ↔ MatchDetails.duration self < - 999999999 * 86400
            ∨ 1000000000 * 86400 ≤ MatchDetails.duration self) as Hiff.
  { unfold MatchDetailsMethods.get_duration,
      MatchDetailsMethods.str_timedelta_seconds.
    set (d := MatchDetails.duration self).
    pose proof (Z.div_mod d 86400 ltac:(lia)) as Hdm.
    pose proof (Z.mod_pos_bound d 86400 ltac:(lia)) as Hmod.
    cbv zeta.
    destruct (Z.ltb_spec 999999999 (Z.abs (d `div` 86400))) as [Hbig | Hsmall].
    - split; [intros _; lia | done].
    - split; [discriminate | lia]. }
  split; [exact Hiff |].
  intros Hrange Hover. apply Hiff in Hover. lia.
Qed.

(** ** MatchDetails: the intact-towers rule *)

Lemma intact_mask (mask : Z) :
  0 ≤ mask < 2048 →
  (mask =? 2047) = MatchDetailsMethods.all_standing mask.
Proof.
  intros Hmask.
  pose proof (checked_below
    (λ k, bool_decide ((k =? 2047) = MatchDetailsMethods.all_standing k))
    2048) as Hcheck.
  specialize (Hcheck ltac:(vm_compute; reflexivity) mask Hmask).
  by apply bool_decide_eq_true_1 in Hcheck.
Qed.

(** X13: for a match that passes the other three tests (lobby type not 4,
    at least 10 human players, at least 480 seconds) and whose tower masks
    fit the 11 bits of the tower table, the low-priority condition holds
    exactly when every one of the 11 towers listed in the module's comment
    still stands on both sides. *)
Theorem low_priority_towers (m : MatchDetails.t) :
  MatchDetails.lobby_type m ≠ 4 →
  10 ≤ MatchDetails.human_players m →
  480 ≤ MatchDetails.duration m →
  0 ≤ MatchDetails.tower_status_radiant m < 2048 →
  0 ≤ MatchDetails.tower_status_dire m < 2048 →
  MatchDetails.low_priority m
  = MatchDetailsMethods.all_standing (MatchDetails.tower_status_dire m)
    && MatchDetailsMethods.all_standing (MatchDetails.tower_status_radiant m).
Proof.
  intros Hlobby Hhumans Hduration Hradiant Hdire.
  unfold MatchDetails.low_priority, Q_or, Q_and.
  rewrite <- !intact_mask by done.
  apply Z.eqb_neq in Hlobby. rewrite Hlobby.
  apply Z.ltb_ge in Hhumans, Hduration. by rewrite Hhumans, Hduration.
Qed.

(** A mask with a bit beyond the 11 of the table is not taken as intact,
    although all 11 towers stand in it. *)
Example intact_mask_beyond :
  MatchDetailsMethods.all_standing 4095 = true ∧ (4095 =? 2047) = false.
Proof. by vm_compute. Qed.

(** ** Ingestion constructors: required and optional fields *)

Lemma first_missing_None (json : gmap string pyval) (keys : list string) :
  first_missing json keys = None ↔ Forall (λ key, is_Some (json !! key)) keys.
Proof.
  induction keys as [| key rest IH]; simpl.
  - split; [constructor | done].
  - rewrite Forall_cons. destruct (json !! key) as [v |].
    + rewrite IH. split; [by eauto | tauto].
    + split; [done | intros [[v [=]] _]].
Qed.

(** Case analysis on the presence of the given keys, in order; [missing]
    closes the case of a key that is absent. *)
Ltac lookup_in_order json keys missing :=
  let rec go ks :=
    lazymatch ks with
    | ?key :: ?rest =>
        lazymatch goal with
        | |- context [json !! key] =>
            destruct (json !! key) as [? |] eqn:?; simpl; [go rest | missing]
        | _ => go rest
        end
    | _ => idtac
    end in
  let ks := eval cbv in keys in go ks.

Section required_fields.
Variable convertAccountNumbertoSteam64 : pyval → result pyval.

(** X14: the detail constructor builds an entry exactly when the record
    has a non-zero hero, the account number converts, and each of the 21
    required fields is present; [account_id], [leaver_status],
    [ability_upgrades] and [additional_units] may be missing. *)
Theorem MatchDetailsPlayerEntry_accepts
    (match_details : MatchDetails.t) (json : gmap string pyval) :
  (∃ entry,
     MatchDetailsPlayerEntry.from_json_response convertAccountNumbertoSteam64
       match_details json = Ok (Some entry))
  ↔ (∃ hero, json !! "hero_id" = Some hero ∧ eq_int hero 0 = false)
    ∧ (∃ account,
         convertAccountNumbertoSteam64 (get json "account_id") = Ok account)
    ∧ Forall (λ key, is_Some (json !! key)) entry_required_keys.
Proof.
  rewrite <- first_missing_None.
  unfold MatchDetailsPlayerEntry.from_json_response, getitem.
  cbn [first_missing entry_required_keys].
  destruct (json !! "hero_id") as [hero |] eqn:Hhero; simpl.
  2: { split; [intros [? [=]] | intros [(? & [=] & _) _]]. }
  destruct (eq_int hero 0) eqn:Hzero; simpl.
  { split; [intros [? [=]] | intros [(? & [= <-] & ?) _]; congruence]. }
  destruct (convertAccountNumbertoSteam64 (get json "account_id"))
    as [account | e] eqn:Hacc; simpl.
  2: { split; [intros [? [=]] | intros (_ & [? [=]] & _)]. }
  lookup_in_order json entry_required_keys
    ltac:(split; [intros [? [=]] | intros (_ & _ & [=])]).
  split; [intros _ | intros _; eexists; reflexivity].
  split; [by eexists | split; [by eexists | done]].
Qed.

(** X15: the detail constructor returns [None] exactly when the record has
    a [hero_id] equal to 0; it then reads no other field, so neither a
    missing required field nor an account number that does not convert
    gets in the way. *)
Theorem MatchDetailsPlayerEntry_none_iff
    (match_details : MatchDetails.t) (json : gmap string pyval) :
  MatchDetailsPlayerEntry.from_json_response convertAccountNumbertoSteam64
    match_details json = Ok None
  ↔ ∃ hero, json !! "hero_id" = Some hero ∧ eq_int hero 0 = true.
Proof.
  unfold MatchDetailsPlayerEntry.from_json_response, getitem.
  destruct (json !! "hero_id") as [hero |] eqn:Hhero; simpl.
  2: { split; [discriminate | intros (? & [=] & _)]. }
  destruct (eq_int hero 0) eqn:Hzero; simpl.
  { split; [by eexists | done]. }
  split; [| intros (? & [= <-] & ?); congruence].
  destruct (convertAccountNumbertoSteam64 (get json "account_id"))
    as [account | e] eqn:Hacc; simpl; [| discriminate].
  lookup_in_order json entry_required_keys ltac:(discriminate).
  discriminate.
Qed.

(** X16: when the detail constructor raises, either [hero_id] is missing
    and it is the [KeyError] for it, or the account-number conversion
    raised and it is that error, or it is the [KeyError] for the first
    required field, in argument order, that the record lacks.  A missing
    optional field never raises. *)
Theorem MatchDetailsPlayerEntry_raises
    (match_details : MatchDetails.t) (json : gmap string pyval) (e : exn) :
  MatchDetailsPlayerEntry.from_json_response convertAccountNumbertoSteam64
    match_details json = Raise e →
  (json !! "hero_id" = None ∧ e = KeyError "hero_id")
  ∨ (is_Some (json !! "hero_id")
     ∧ convertAccountNumbertoSteam64 (get json "account_id") = Raise e)
  ∨ (∃ key, first_missing json entry_required_keys = Some key
            ∧ e = KeyError key).
Proof.
  unfold MatchDetailsPlayerEntry.from_json_response, getitem.
  cbn [first_missing entry_required_keys].
  destruct (json !! "hero_id") as [hero |] eqn:Hhero; simpl.
  2: { intros [= <-]. by left. }
  destruct (eq_int hero 0); simpl; [discriminate |].
  destruct (convertAccountNumbertoSteam64 (get json "account_id"))
    as [account | e'] eqn:Hacc; simpl.
  2: { intros [= <-]. right. left. by split. }
  lookup_in_order json entry_required_keys
    ltac:(intros [= <-]; right; right; by eexists).
  discriminate.
Qed.
End required_fields.

(** X17: [MatchPicksBans.from_json_response] needs [is_pick], [hero_id],
    [team] and [order]: with all four present it builds the pick or ban
    from their values, otherwise it raises the [KeyError] for the first of
    them, in that order, that is missing. *)
Theorem MatchPicksBans_from_json_response_fields
    (match_details : MatchDetails.t) (json : gmap string pyval) :
  match MatchPicksBans.from_json_response match_details json with
  | Ok pick =>
      MatchPicksBans.match_details pick = match_details
      ∧ json !! "is_pick" = Some (MatchPicksBans.is_pick pick)
      ∧ json !! "hero_id" = Some (MatchPicksBans.hero_id_id pick)
      ∧ json !! "team" = Some (MatchPicksBans.team pick)
      ∧ json !! "order" = Some (MatchPicksBans.order pick)
  | Raise e =>
      ∃ key, first_missing json picks_bans_keys = Some key ∧ e = KeyError key
  end.
Proof.
  unfold MatchPicksBans.from_json_response, getitem.
  cbn [first_missing picks_bans_keys].
  lookup_in_order json picks_bans_keys ltac:(by eexists).
  done.
Qed.

(** X18: the discovery constructor first converts the account number and
    then reads [player_slot] and [hero_id]: a conversion error comes
    before any [KeyError], the [KeyError] is for the first of the two
    fields that is missing, and otherwise the participant carries the
    converted account and the two values as they are. *)
Theorem MatchHistoryQueuePlayers_from_json_response_outcome
    (convertAccountNumbertoSteam64 : pyval → result pyval)
    (queue : MatchHistoryQueue.t) (json : gmap string pyval) :
  match
    MatchHistoryQueuePlayers.from_json_response convertAccountNumbertoSteam64
      queue json
  with
  | Ok player =>
      MatchHistoryQueuePlayers.match_history_queue player = queue
      ∧ convertAccountNumbertoSteam64 (get json "account_id")
        = Ok (MatchHistoryQueuePlayers.account_id_id player)
      ∧ json !! "player_slot"
        = Some (MatchHistoryQueuePlayers.player_slot player)
      ∧ json !! "hero_id" = Some (MatchHistoryQueuePlayers.hero_id_id player)
  | Raise e =>
      convertAccountNumbertoSteam64 (get json "account_id") = Raise e
      ∨ ((∃ account,
            convertAccountNumbertoSteam64 (get json "account_id") = Ok account)
         ∧ ∃ key, first_missing json [ "player_slot"; "hero_id" ] = Some key
                  ∧ e = KeyError key)
  end.
Proof.
  unfold MatchHistoryQueuePlayers.from_json_response, getitem.
  cbn [first_missing].
  destruct (convertAccountNumbertoSteam64 (get json "account_id"))
    as [account | e] eqn:Hacc; simpl; [| by left].
  lookup_in_order json [ "player_slot"; "hero_id" ]
    ltac:(right; split; [by eexists | by eexists]).
  done.
Qed.

(** ** The match-sequence cursor as a cell *)

(** X19: a write of a value the column holds overrides the write before
    it, whether that one succeeded or raised; a write of any other value
    raises and changes nothing; a read leaves the table as writing back the
    value read would; and neither a read nor a write touches a row other
    than the one with primary key 1. *)
Theorem cursor_cell_laws (objects : gmap Z Z) (v w : Z) :
  (- 2 ^ 63 ≤ v < 2 ^ 63 →
   MatchSequenceNumber.step
     (MatchSequenceNumber.step objects (MatchSequenceNumber.SetLast w))
     (MatchSequenceNumber.SetLast v)
   = MatchSequenceNumber.step objects (MatchSequenceNumber.SetLast v)
   ∧ MatchSequenceNumber.set_last_match_seq_num v objects
     = MatchSequenceNumber.Saved (<[1 := v]> objects))
  ∧ (¬ (- 2 ^ 63 ≤ v < 2 ^ 63) →
     MatchSequenceNumber.set_last_match_seq_num v objects
       = MatchSequenceNumber.OutOfRange
     ∧ MatchSequenceNumber.step objects (MatchSequenceNumber.SetLast v)
       = objects)
  ∧ (MatchSequenceNumber.get_last_match_seq_num objects).2
    = MatchSequenceNumber.step objects
        (MatchSequenceNumber.SetLast
           (MatchSequenceNumber.get_last_match_seq_num objects).1)
  ∧ ∀ (c : MatchSequenceNumber.call) (k : Z),
      k ≠ 1 → MatchSequenceNumber.step objects c !! k = objects !! k.
Proof.
  assert (MatchSequenceNumber.bigint v = true ↔ - 2 ^ 63 ≤ v < 2 ^ 63)
    as Hrange.
  { unfold MatchSequenceNumber.bigint.
    rewrite andb_true_iff, Z.leb_le, Z.ltb_lt. tauto. }
  split; [| split; [| split]].
  - intros Hv. apply Hrange in Hv. split; [| by apply set_in_range].
    rewrite !step_set, Hv.
    destruct (MatchSequenceNumber.bigint w); [| done].
    apply insert_insert_eq.
  - intros Hv.
    assert (MatchSequenceNumber.bigint v = false) as Hout.
    { destruct (MatchSequenceNumber.bigint v); [| done].
      exfalso. by apply Hv, Hrange. }
    split; [by apply set_out_of_range |]. by rewrite step_set, Hout.
  - rewrite step_set.
    unfold MatchSequenceNumber.get_last_match_seq_num,
      MatchSequenceNumber.get_or_create.
    destruct (objects !! 1) as [x |] eqn:Hx; simpl; [| done].
    destruct (MatchSequenceNumber.bigint x); [| done].
    symmetry. by apply insert_id.
  - intros c k Hk. destruct c as [| u].
    + simpl. unfold MatchSequenceNumber.get_last_match_seq_num,
        MatchSequenceNumber.get_or_create.
      destruct (objects !! 1); simpl; [done |].
      by rewrite lookup_insert_ne.
    + rewrite step_set. destruct (MatchSequenceNumber.bigint u); [| done].
      by rewrite lookup_insert_ne.
Qed.

(** ** Labels are unambiguous *)

Lemma game_type_known (game_mode : Z) :
  1 ≤ game_mode ≤ 13 → parse_int (get_game_type game_mode) = None.
Proof.
  intros Hrange.
  pose proof (checked_below
    (λ k, bool_decide (1 ≤ k → parse_int (get_game_type k) = None)) 14)
    as Hcheck.
  specialize (Hcheck ltac:(vm_compute; reflexivity) game_mode ltac:(lia)).
  apply bool_decide_eq_true_1 in Hcheck. apply Hcheck. lia.
Qed.

Lemma game_type_known_inj (a b : Z) :
  1 ≤ a ≤ 13 → 1 ≤ b ≤ 13 → get_game_type a = get_game_type b → a = b.
Proof.
  intros Ha Hb.
  pose proof (checked_below
    (λ x, forallb
            (λ y, bool_decide (1 ≤ x → 1 ≤ y →
                               get_game_type x = get_game_type y → x = y))
            (seqZ 0 14)) 14) as Hcheck.
  specialize (Hcheck ltac:(vm_compute; reflexivity) a ltac:(lia)).
  pose proof (checked_below _ 14 Hcheck b ltac:(lia)) as Hab.
  apply bool_decide_eq_true_1 in Hab. apply Hab; lia.
Qed.

(** X20: [get_game_type] never renders two different codes alike: a code
    outside 1..13 renders as its own numeral, no label reads as a numeral,
    and the 13 labels are pairwise different. *)
Theorem get_game_type_inj (a b : Z) :
  get_game_type a = get_game_type b → a = b.
Proof.
  intros Heq.
  destruct (decide (1 ≤ a ≤ 13)) as [Ha | Ha];
    destruct (decide (1 ≤ b ≤ 13)) as [Hb | Hb].
  - by apply game_type_known_inj.
  - pose proof (game_type_known a Ha) as Hnone.
    rewrite Heq in Hnone.
    destruct (get_game_type_unknown b ltac:(lia)) as [_ Hsome]. congruence.
  - pose proof (game_type_known b Hb) as Hnone.
    rewrite <- Heq in Hnone.
    destruct (get_game_type_unknown a ltac:(lia)) as [_ Hsome]. congruence.
  - destruct (get_game_type_unknown a ltac:(lia)) as [Hstra _].
    destruct (get_game_type_unknown b ltac:(lia)) as [Hstrb _].
    apply str_inj. congruence.
Qed.

Lemma lobby_type_known (lobby_type : Z) :
  0 ≤ lobby_type ≤ 5 → parse_int (get_lobby_type lobby_type) = None.
Proof.
  intros Hrange.
  pose proof (checked_below
    (λ k, bool_decide (parse_int (get_lobby_type k) = None)) 6) as Hcheck.
  specialize (Hcheck ltac:(vm_compute; reflexivity) lobby_type ltac:(lia)).
  by apply bool_decide_eq_true_1 in Hcheck.
Qed.

Lemma lobby_type_known_inj (a b : Z) :
  0 ≤ a ≤ 5 → 0 ≤ b ≤ 5 → get_lobby_type a = get_lobby_type b → a = b.
Proof.
  intros Ha Hb.
  pose proof (checked_below
    (λ x, forallb
            (λ y, bool_decide (get_lobby_type x = get_lobby_type y → x = y))
            (seqZ 0 6)) 6) as Hcheck.
  specialize (Hcheck ltac:(vm_compute; reflexivity) a ltac:(lia)).
  pose proof (checked_below _ 6 Hcheck b ltac:(lia)) as Hab.
  by apply bool_decide_eq_true_1 in Hab.
Qed.

(** X21: [get_lobby_type] never renders two different codes alike. *)
Theorem get_lobby_type_inj (a b : Z) :
  get_lobby_type a = get_lobby_type b → a = b.
Proof.
  intros Heq.
  destruct (decide (0 ≤ a ≤ 5)) as [Ha | Ha];
    destruct (decide (0 ≤ b ≤ 5)) as [Hb | Hb].
  - by apply lobby_type_known_inj.
  - pose proof (lobby_type_known a Ha) as Hnone.
    rewrite Heq, (get_lobby_type_unknown b), str_parse_int in Hnone by lia.
    discriminate.
  - pose proof (lobby_type_known b Hb) as Hnone.
    rewrite <- Heq, (get_lobby_type_unknown a), str_parse_int in Hnone by lia.
    discriminate.
  - rewrite (get_lobby_type_unknown a), (get_lobby_type_unknown b) in Heq
      by lia.
    by apply str_inj.
Qed.

(** ** Instances of the properties above *)

Lemma get_id_or_url_segment_witness :
  SteamPlayer.profileurl sample_profile
  = "http://steamcommunity.com/profiles"
    ++ String "/" ("76561197960265729" ++ String "/" "")
  ∧ SteamPlayerMethods.get_id_or_url sample_profile
    = Ok (PStr "76561197960265729").
Proof.
  split; [reflexivity |].
  apply (get_id_or_url_segment sample_profile
           "http://steamcommunity.com/profiles" "76561197960265729" "");
    [reflexivity | compute_done | compute_done].
Defined.

Lemma get_by_id_lookup_witness :
  NoDup (SteamPlayer.steamid <$> sample_players)
  ∧ SteamPlayerMethods.get_by_id 76561197960265730 sample_players
    = SteamPlayerMethods.Found (Some (player_at 76561197960265730 100)).
Proof.
  assert (NoDup (SteamPlayer.steamid <$> sample_players)) as Hnd
    by compute_done.
  split; [exact Hnd |].
  apply (get_by_id_lookup 76561197960265730 sample_players Hnd).
  split; [right; left | reflexivity].
Defined.

Lemma filter_by_name_hits_witness :
  is_Some (SteamPlayerMethods.searched (Some "end"))
  ∧ SteamPlayerMethods.filter_by_name sample_icontains sample_iexact parse_int
      (Some "end") (Some "") (SteamPlayerMethods.CStr "not a number") 25
      (sample_profile :: sample_players)
    = Ok [ sample_profile ].
Proof.
  split; [by eexists |].
  destruct (filter_by_name_hits sample_icontains sample_iexact parse_int
              (Some "end") (Some "") (SteamPlayerMethods.CStr "not a number")
              25 (sample_profile :: sample_players))
    as (rows & Hrows & -> & _); [left; by eexists |].
  exact Hrows.
Defined.

Lemma filter_by_name_blank_witness :
  SteamPlayerMethods.searched (Some "") = None
  ∧ SteamPlayerMethods.searched_id parse_int (SteamPlayerMethods.CInt 0) = None
  ∧ SteamPlayerMethods.filter_by_name sample_icontains sample_iexact parse_int
      (Some "") None (SteamPlayerMethods.CInt 0) 2 sample_players
    = Ok (take 2 sample_players).
Proof.
  split; [reflexivity |]. split; [reflexivity |].
  apply (filter_by_name_blank sample_icontains sample_iexact parse_int
           (Some "") None (SteamPlayerMethods.CInt 0) 2 sample_players);
    [intros (? & _); discriminate | reflexivity ..].
Defined.

Lemma roster_concat_witness :
  MatchDetailsMethods.get_players fst snd sample_match sample_roster
  = [ (27110133, 0); (27110133, 1); (27110133, 2);
      (27110133, 128); (27110133, 130) ]
  ∧ MatchDetailsMethods.get_players fst snd sample_match sample_roster
    = (MatchDetailsMethods.get_radiant_players fst snd sample_match
         sample_roster
       ++ MatchDetailsMethods.get_dire_players fst snd sample_match
            sample_roster)%list.
Proof.
  split; [by vm_compute |].
  apply (roster_concat fst snd sample_match sample_roster).
  intros [ma sa] [mb sb] _ _ Ha Hb Hs. simpl in *. congruence.
Defined.

Lemma get_duration_hms_witness :
  0 ≤ MatchDetails.duration sample_match < 86400
  ∧ ∃ h m s : Z,
      0 ≤ h < 24 ∧ 0 ≤ m < 60 ∧ 0 ≤ s < 60
      ∧ h * 3600 + m * 60 + s = 481
      ∧ MatchDetailsMethods.get_duration sample_match
        = MatchDetailsMethods.Rendered
            (str h ++ ":" ++ MatchDetailsMethods.two_digits m
               ++ ":" ++ MatchDetailsMethods.two_digits s)
      ∧ MatchDetailsMethods.parse_hms
          (str h ++ ":" ++ MatchDetailsMethods.two_digits m
             ++ ":" ++ MatchDetailsMethods.two_digits s)
        = Some 481.
Proof.
  assert (0 ≤ MatchDetails.duration sample_match < 86400) as Hd
    by (simpl; lia).
  split; [exact Hd |]. exact (get_duration_hms sample_match Hd).
Defined.

Example two_digits_sample :
  MatchDetailsMethods.two_digits 8 = "08"
  ∧ MatchDetailsMethods.two_digits 59 = "59"
  ∧ MatchDetailsMethods.two_digits 0 = "00".
Proof. by vm_compute. Qed.

Example get_duration_sample :
  MatchDetailsMethods.get_duration sample_match
  = MatchDetailsMethods.Rendered "0:08:01".
Proof. by vm_compute. Qed.

Example get_duration_day :
  MatchDetailsMethods.str_timedelta_seconds 90061
  = MatchDetailsMethods.Rendered "1 day, 1:01:01".
Proof. by vm_compute. Qed.

Lemma low_priority_towers_witness :
  MatchDetails.lobby_type sample_match ≠ 4
  ∧ 0 ≤ MatchDetails.tower_status_radiant sample_match < 2048
  ∧ MatchDetails.low_priority sample_match = false.
Proof.
  split; [discriminate |]. split; [simpl; lia |].
  rewrite (low_priority_towers sample_match);
    [reflexivity | discriminate | simpl; lia ..].
Defined.

Example empty_player_dropped :
  steamapi.convertAccountNumbertoSteam64 sample_offset
    (get empty_player_json "account_id") = Raise ValueError
  ∧ empty_player_json !! "kills" = None
  ∧ MatchDetailsPlayerEntry.from_json_response
      (steamapi.convertAccountNumbertoSteam64 sample_offset)
      sample_match empty_player_json = Ok None.
Proof. by vm_compute. Qed.

Lemma MatchDetailsPlayerEntry_raises_witness :
  MatchDetailsPlayerEntry.from_json_response
    (steamapi.convertAccountNumbertoSteam64 sample_offset)
    sample_match player_without_kills_json = Raise (KeyError "kills")
  ∧ first_missing player_without_kills_json entry_required_keys = Some "kills".
Proof.
  assert (MatchDetailsPlayerEntry.from_json_response
            (steamapi.convertAccountNumbertoSteam64 sample_offset)
            sample_match player_without_kills_json = Raise (KeyError "kills"))
    as Hraise by (by vm_compute).
  split; [exact Hraise |].
  destruct (MatchDetailsPlayerEntry_raises _ _ _ _ Hraise)
    as [[Hhero _] | [[_ Hconv] | (key & Hkey & [= <-])]].
  - vm_compute in Hhero. discriminate.
  - vm_compute in Hconv. discriminate.
  - exact Hkey.
Defined.

Lemma get_game_type_inj_witness :
  get_game_type 2 = get_game_type 2 ∧ 2 = 2.
Proof.
  split; [reflexivity |]. apply (get_game_type_inj 2 2). reflexivity.
Defined.

Lemma get_lobby_type_inj_witness :
  get_lobby_type 4 = get_lobby_type 4 ∧ 4 = 4.
Proof.
  split; [reflexivity |]. apply (get_lobby_type_inj 4 4). reflexivity.
Defined.
